(** * Slot availability and transactional reservation engine

    A shallow embedding of [functions/src/services/availability.service.ts]
    and [functions/src/services/reservation.service.ts]: the Firestore
    collections are finite maps from document id to document, an [async]
    function is a function of the database that returns a result or a thrown
    error together with the database it leaves behind, and the body of
    [db.runTransaction] reads a snapshot and buffers its writes until commit.
    Calls that run at the same time are the steps of their transaction
    bodies, interleaved by a schedule over a store that versions its
    slot-lock documents. *)

From stdpp Require Import gmap strings list fin_maps pretty sorting.
From Stdlib Require Import ZArith QArith Qround Lia.

Open Scope Z_scope.

(** ** Data model *)

Inductive SeatingType := indoor | balcony.

Inductive ReservationStatus :=
  | pending | confirmed | seated | completed | cancelled | no_show.

#[global] Instance SeatingType_eq_dec : EqDecision SeatingType.
Proof. solve_decision. Defined.

#[global] Instance ReservationStatus_eq_dec : EqDecision ReservationStatus.
Proof. solve_decision. Defined.

(** The string a status or a seating type has in the documents and in the
    template literals of the error messages. *)
Definition statusName (s : ReservationStatus) : string :=
  match s with
  | pending => "pending"
  | confirmed => "confirmed"
  | seated => "seated"
  | completed => "completed"
  | cancelled => "cancelled"
  | no_show => "no-show"
  end.

Definition seatingName (s : SeatingType) : string :=
  match s with
  | indoor => "indoor"
  | balcony => "balcony"
  end.

(** A JavaScript [Date] (and a Firestore [Timestamp]) is its number of
    milliseconds since the epoch. *)
Definition Date := Z.

(** The [partySize] field as a stored document can have it: absent
    ([undefined]), [null], or a number. Party sizes are whole numbers of
    seats, the integers of the data model. *)
Inductive JsNum :=
  | JsUndefined
  | JsNull
  | JsNumber (n : Z).

(** [v || 0] for such a value: [undefined], [null] and [0] are falsy. *)
Definition orZero (v : JsNum) : Z :=
  match v with
  | JsUndefined => 0
  | JsNull => 0
  | JsNumber n => if Z.eqb n 0 then 0 else n
  end.

(** A document of the [reservations] collection. *)
Record ReservationDoc := mkReservationDoc {
  guestName : string;
  email : string;
  phone : string;
  partySize : JsNum;
  date : Date;
  time : string;
  seatingType : SeatingType;
  status : ReservationStatus;
  specialRequests : option string;
  createdAt : Date;
  updatedAt : Date;
  cancelledAt : option Date;
  cancellationReason : option string
}.

(** A document of the [slot-locks] collection. *)
Record SlotLockDoc := mkSlotLockDoc {
  lastReservationId : option string;
  lastReservationAt : option Date
}.

(** A document of the [blocked-dates] collection; [reason] may be absent. *)
Record BlockedDateDoc := mkBlockedDateDoc {
  reason : option string
}.

(** The settings document, with the fields the services and the admin
    settings page read. *)
Record Settings := mkSettings {
  capacityIndoor : Z;
  capacityBalcony : Z;
  timeSlots : list string;
  maxAdvanceBookingDays : Z;
  cancellationWindowHours : Z
}.

Record Db := mkDb {
  reservations : gmap string ReservationDoc;
  slotLocks : gmap string SlotLockDoc;
  blockedDates : gmap string BlockedDateDoc;
  settings : Settings
}.

Record AvailabilityResult := mkAvailabilityResult {
  available : bool;
  remainingCapacity : Z;
  totalCapacity : Z;
  bookedCount : Z
}.

Record TimeSlot := mkTimeSlot {
  ts_time : string;
  availableIndoor : Z;
  availableBalcony : Z;
  isAvailable : bool
}.

(** [da_date] is [date.toISOString()] in the source; the instant it prints is
    kept instead of the text. *)
Record DailyAvailability := mkDailyAvailability {
  da_date : Date;
  da_timeSlots : list TimeSlot;
  isBlocked : bool;
  notes : option string
}.

(** The error classes of [@/utils/errors], each with its message. *)
Inductive Error :=
  | ValidationError (msg : string)
  | NotFoundError (msg : string)
  | PreconditionFailedError (msg : string)
  | ResourceExhaustedError (msg : string)
  | TypeError (msg : string).

(** ** Asynchronous functions over the database *)

Definition M (A : Type) : Type := Db → (Error + A) * Db.

Definition ret {A} (a : A) : M A := λ db, (inr a, db).

Definition throw {A} (e : Error) : M A := λ db, (inl e, db).

Definition bind {A B} (m : M A) (k : A → M B) : M B :=
  λ db, match m db with
        | (inl e, db') => (inl e, db')
        | (inr a, db') => k a db'
        end.

Notation "'await' x ← m ; k" := (bind m (λ x, k))
  (at level 10, x binder, m at level 100, k at level 200,
   format "'await'  x  ←  m ;  '/' k").

(** ** Transactions

    Inside [db.runTransaction] every [transaction.get] reads the snapshot the
    transaction started from and every [transaction.set] is buffered; the
    writes are applied together when the body returns, and none is applied
    when it throws. *)

Inductive Write :=
  | SetReservation (id : string) (data : ReservationDoc)
  | MergeSlotLock (key : string) (reservationId : string) (at_ : Date).

Definition Tx (A : Type) : Type := Db → list Write → (Error + A) * list Write.

Definition tx_throw {A} (e : Error) : Tx A := λ _ ws, (inl e, ws).

Definition tx_bind {A B} (m : Tx A) (k : A → Tx B) : Tx B :=
  λ snap ws, match m snap ws with
             | (inl e, ws') => (inl e, ws')
             | (inr a, ws') => k a snap ws'
             end.

Definition tx_set (w : Write) : Tx unit := λ _ ws, (inr tt, ws ++ [w]).

Notation "'within' x ← m ; k" := (tx_bind m (λ x, k))
  (at level 10, x binder, m at level 100, k at level 200,
   format "'within'  x  ←  m ;  '/' k").

(** [set(ref, data)] replaces the document; [set(ref, data, {merge: true})]
    on a slot lock overwrites the two fields it names. *)
Definition applyWrite (db : Db) (w : Write) : Db :=
  match w with
  | SetReservation id data =>
      mkDb (<[id := data]> (reservations db)) (slotLocks db)
           (blockedDates db) (settings db)
  | MergeSlotLock key rid at_ =>
      mkDb (reservations db)
           (<[key := mkSlotLockDoc (Some rid) (Some at_)]> (slotLocks db))
           (blockedDates db) (settings db)
  end.

Definition runTransaction {A} (body : Tx A) : M A :=
  λ db, match body db [] with
        | (inl e, _) => (inl e, db)
        | (inr a, ws) => (inr a, fold_left applyWrite ws db)
        end.

(** A read made with a plain [await] inside the transaction body. It does
    not go through the transaction; in a transaction that runs alone the
    database it sees is the one the snapshot was taken of. What it sees when
    calls run at the same time is the store of the moment, see [answer]. *)
Definition tx_await {A} (m : M A) : Tx A := λ snap ws, (fst (m snap), ws).

(** ** Queries on the [reservations] collection

    A query is the list of its [where] clauses; [get()] returns the documents
    that satisfy all of them. *)

Definition Clause := ReservationDoc → bool.

Definition whereDateGe (d : Date) : Clause := λ doc, bool_decide (d ≤ date doc).
Definition whereDateLe (d : Date) : Clause := λ doc, bool_decide (date doc ≤ d).
Definition whereTimeEq (t : string) : Clause := λ doc, bool_decide (time doc = t).
Definition whereSeatingTypeEq (s : SeatingType) : Clause :=
  λ doc, bool_decide (seatingType doc = s).
Definition whereStatusEq (s : ReservationStatus) : Clause :=
  λ doc, bool_decide (status doc = s).
Definition whereStatusIn (l : list ReservationStatus) : Clause :=
  λ doc, bool_decide (status doc ∈ l).
Definition whereEmailEq (e : string) : Clause := λ doc, bool_decide (email doc = e).

Definition satisfies (q : list Clause) (doc : ReservationDoc) : bool :=
  forallb (λ clause, clause doc) q.

Definition docsOf (q : list Clause) (coll : gmap string ReservationDoc)
  : list (string * ReservationDoc) :=
  List.filter (λ d, satisfies q (snd d)) (map_to_list coll).

Definition queryGet (q : list Clause) : M (list (string * ReservationDoc)) :=
  λ db, (inr (docsOf q (reservations db)), db).

Definition tx_queryGet (q : list Clause) : Tx (list (string * ReservationDoc)) :=
  λ snap ws, (inr (docsOf q (reservations snap)), ws).

(** [docs.reduce((sum, doc) => sum + (doc.data().partySize || 0), 0)] *)
Definition sumPartySizes (docs : list (string * ReservationDoc)) : Z :=
  fold_left (λ sum doc, sum + orZero (partySize (snd doc))) docs 0.

(** ** Date helpers *)

Definition msPerDay : Z := 86400000.
Definition msPerHour : Z := 3600000.

(** Modelled from the spec: [getStartOfDay] of [@/utils/dates] is not in the
    sources. A date is a calendar date with the time of day stripped; the
    start of its day is the first millisecond of that day. *)
Definition getStartOfDay (d : Date) : Date := d - d `mod` msPerDay.

(** Modelled from the spec: [getEndOfDay] of [@/utils/dates] is not in the
    sources; the last millisecond of the day of [d]. *)
Definition getEndOfDay (d : Date) : Date := getStartOfDay d + (msPerDay - 1).

(** Modelled from the spec: [formatDateKey] of [@/utils/dates] is not in the
    sources. The date key is a canonical string form of the calendar date,
    without time of day: here the decimal numeral of the day number. *)
Definition formatDateKey (d : Date) : string := pretty (d `div` msPerDay).

(** Modelled from the spec: [getHoursBetween] of [@/utils/dates] is not in the
    sources; the hours from the first instant to the second, as a fraction. *)
Definition getHoursBetween (from to : Date) : Q := Qmake (to - from) 3600000.

(** ** Local time

    [setHours] and [setDate] work on the fields a date has in the local time
    of the server, which is taken at a fixed offset from UTC: local time is
    [tz] milliseconds ahead. *)

(** [d.setHours(0, 0, 0, 0)]: the first millisecond of the local day of [d]. *)
Definition setHoursMidnight (tz : Z) (d : Date) : Date :=
  d - (d + tz) `mod` msPerDay.

(** [d.setHours(23, 59, 59, 999)]: the last millisecond of the local day. *)
Definition setHoursEndOfDay (tz : Z) (d : Date) : Date :=
  d - (d + tz) `mod` msPerDay + (msPerDay - 1).

(** [d.setDate(d.getDate() + 1)]: the same local time on the next day. *)
Definition setDateNextDay (d : Date) : Date := d + msPerDay.

(** ** Settings provider *)

(** Modelled from the spec: [getSettings] of [settings.service] is not in the
    sources; it supplies the operating parameters. *)
Definition getSettings : M Settings := λ db, (inr (settings db), db).

(** Modelled from the spec: [getCapacity] of [settings.service] is not in the
    sources; the total capacity per slot of a seating category. *)
Definition getCapacity (seatingType : SeatingType) : M Z :=
  await settings ← getSettings;
  ret (match seatingType with
       | indoor => capacityIndoor settings
       | balcony => capacityBalcony settings
       end).

(** Modelled from the spec: [getCancellationWindow] of [settings.service] is
    not in the sources; the configured cancellation-window hours. *)
Definition getCancellationWindow : M Z :=
  await settings ← getSettings;
  ret (cancellationWindowHours settings).

(** [db.collection('blocked-dates').doc(dateKey).get()] *)
Definition getBlockedDate (dateKey : string) : M (option BlockedDateDoc) :=
  λ db, (inr (blockedDates db !! dateKey), db).

(** Modelled from the spec: [isDateWithinBookingWindow] of [settings.service]
    is not in the sources. The booking window is the allowed range of future
    dates, from today to [maxAdvanceBookingDays] days ahead; a date with a
    blocked-date record is closed for bookings, and the spec puts the failure
    of [create] on such a date under this validation, the only one
    [createReservation] makes of its date. *)
Definition isDateWithinBookingWindow (now : Date) (d : Date) : M bool :=
  await settings ← getSettings;
  await blockedDoc ← getBlockedDate (formatDateKey d);
  ret (bool_decide (getStartOfDay now ≤ d
                    ∧ d ≤ getEndOfDay (now + maxAdvanceBookingDays settings * msPerDay))
       && match blockedDoc with
          | Some _ => false
          | None => true
          end).

(** ** availability.service *)

(** Calculate availability for a specific time slot. *)
Definition calculateSlotAvailability
    (date : Date) (time : string) (seatingType : SeatingType)
  : M AvailabilityResult :=
  await totalCapacity ← getCapacity seatingType;
  let startOfDay := getStartOfDay date in
  let endOfDay := getEndOfDay date in
  await reservationsSnapshot ← queryGet
    [ whereDateGe startOfDay; whereDateLe endOfDay; whereTimeEq time;
      whereSeatingTypeEq seatingType;
      whereStatusIn [confirmed; pending; seated] ];
  let bookedCount := sumPartySizes reservationsSnapshot in
  let remainingCapacity := Z.max 0 (totalCapacity - bookedCount) in
  ret {| available := bool_decide (remainingCapacity > 0);
         remainingCapacity := remainingCapacity;
         totalCapacity := totalCapacity;
         bookedCount := bookedCount |}.

(** Check if a specific slot can accommodate a party size. *)
Definition checkSlotAvailability
    (date : Date) (time : string) (seatingType : SeatingType) (partySize : Z)
  : M (AvailabilityResult * bool) :=
  await availability ← calculateSlotAvailability date time seatingType;
  ret (availability, bool_decide (remainingCapacity availability >= partySize)).

(** [Promise.all] over a list of promises. *)
Fixpoint promiseAll {A} (ps : list (M A)) : M (list A) :=
  match ps with
  | [] => ret []
  | p :: ps' =>
      await x ← p;
      await xs ← promiseAll ps';
      ret (x :: xs)
  end.

(** Get availability for all slots on a specific date. *)
Definition getDailyAvailability (date : Date) : M DailyAvailability :=
  let dateKey := formatDateKey date in
  await blockedDoc ← getBlockedDate dateKey;
  match blockedDoc with
  | Some blockedData =>
      ret {| da_date := date;
             da_timeSlots := [];
             isBlocked := true;
             notes := reason blockedData |}
  | None =>
      await settings ← getSettings;
      await timeSlots ← promiseAll
        (map (λ time,
           await indoorAvailability ← calculateSlotAvailability date time indoor;
           await balconyAvailability ← calculateSlotAvailability date time balcony;
           ret {| ts_time := time;
                  availableIndoor := remainingCapacity indoorAvailability;
                  availableBalcony := remainingCapacity balconyAvailability;
                  isAvailable :=
                    bool_decide (remainingCapacity indoorAvailability > 0)
                    || bool_decide (remainingCapacity balconyAvailability > 0) |})
           (timeSlots settings));
      ret {| da_date := date;
             da_timeSlots := timeSlots;
             isBlocked := false;
             notes := None |}
  end.

(** [db.collection('reservations').doc()]: a reference with an auto-generated
    id, which no document of the collection has. *)
Definition newReservationRef : M string :=
  λ db, (inr (fresh (dom (reservations db))), db).

Definition tx_getSlotLock (key : string) : Tx (option SlotLockDoc) :=
  λ snap ws, (inr (slotLocks snap !! key), ws).

(** Transaction-safe availability check and reservation. [now] is the server
    timestamp of the commit. *)
Definition checkAndReserveSlot
    (now : Date) (date : Date) (time : string) (seatingType : SeatingType)
    (partySize : Z) (reservationData : ReservationDoc)
  : M string :=
  let slotLockRef :=
    formatDateKey date +:+ "_" +:+ time +:+ "_" +:+ seatingName seatingType in
  await reservationRef ← newReservationRef;
  await _ ← runTransaction (
    within _ ← tx_getSlotLock slotLockRef;
    within totalCapacity ← tx_await (getCapacity seatingType);
    let startOfDay := getStartOfDay date in
    let endOfDay := getEndOfDay date in
    let reservationsQuery :=
      [ whereDateGe startOfDay; whereDateLe endOfDay; whereTimeEq time;
        whereSeatingTypeEq seatingType;
        whereStatusIn [confirmed; pending; seated] ] in
    within reservationsSnapshot ← tx_queryGet reservationsQuery;
    let bookedCount := sumPartySizes reservationsSnapshot in
    let remainingCapacity := totalCapacity - bookedCount in
    if bool_decide (remainingCapacity < partySize) then
      tx_throw (ResourceExhaustedError
        ("This time slot is fully booked. Only "
         +:+ pretty (Z.max 0 remainingCapacity) +:+ " seats remaining."))
    else
      within _ ← tx_set (SetReservation reservationRef reservationData);
      tx_set (MergeSlotLock slotLockRef reservationRef now));
  ret reservationRef.

(** *** The transaction body, one operation at a time

    When calls run at the same time their transactions interleave, and what a
    body does is then a sequence of operations, each answered by the store of
    the moment: the reads made through the transaction, the plain [await],
    and the buffered writes. *)

Inductive TxOp :=
  | GetSlotLock (key : string)
  | AwaitCapacity (seatingType : SeatingType)
  | GetReservations (q : list Clause)
  | SetDoc (w : Write).

(** What an operation gives back to the body. *)
Definition Answer (op : TxOp) : Type :=
  match op with
  | GetSlotLock _ => option SlotLockDoc
  | AwaitCapacity _ => Z
  | GetReservations _ => list (string * ReservationDoc)
  | SetDoc _ => unit
  end.

Inductive TxProg (A : Type) : Type :=
  | TxReturn (a : A)
  | TxThrow (e : Error)
  | TxDo (op : TxOp) (k : Answer op → TxProg A).

Arguments TxReturn {A} a.
Arguments TxThrow {A} e.
Arguments TxDo {A} op k.

Notation "'perform' x ← op ; k" := (TxDo op (λ x, k))
  (at level 10, x binder, op at level 100, k at level 200,
   format "'perform'  x  ←  op ;  '/' k").

(** The function passed to [db.runTransaction] in [checkAndReserveSlot], with
    the two references it closes over. *)
Definition reserveBody
    (now : Date) (date : Date) (time : string) (seatingType : SeatingType)
    (partySize : Z) (reservationData : ReservationDoc)
    (slotLockRef reservationRef : string)
  : TxProg unit :=
  perform _ ← GetSlotLock slotLockRef;
  perform totalCapacity ← AwaitCapacity seatingType;
  let startOfDay := getStartOfDay date in
  let endOfDay := getEndOfDay date in
  let reservationsQuery :=
    [ whereDateGe startOfDay; whereDateLe endOfDay; whereTimeEq time;
      whereSeatingTypeEq seatingType;
      whereStatusIn [confirmed; pending; seated] ] in
  perform reservationsSnapshot ← GetReservations reservationsQuery;
  let bookedCount := sumPartySizes reservationsSnapshot in
  let remainingCapacity := totalCapacity - bookedCount in
  if bool_decide (remainingCapacity < partySize) then
    TxThrow (ResourceExhaustedError
      ("This time slot is fully booked. Only "
       +:+ pretty (Z.max 0 remainingCapacity) +:+ " seats remaining."))
  else
    perform _ ← SetDoc (SetReservation reservationRef reservationData);
    perform _ ← SetDoc (MergeSlotLock slotLockRef reservationRef now);
    TxReturn tt.

(** An operation as a step of a transaction that runs alone, reading its
    snapshot, and a program as the body made of such steps. *)
Definition performAlone (op : TxOp) : Tx (Answer op) :=
  match op return Tx (Answer op) with
  | GetSlotLock key => tx_getSlotLock key
  | AwaitCapacity seatingType => tx_await (getCapacity seatingType)
  | GetReservations q => tx_queryGet q
  | SetDoc w => tx_set w
  end.

Fixpoint runAlone {A} (prog : TxProg A) : Tx A :=
  match prog with
  | TxReturn a => λ _ ws, (inr a, ws)
  | TxThrow e => tx_throw e
  | TxDo op k => tx_bind (performAlone op) (λ b, runAlone (k b))
  end.

(** The answer the store of the moment gives to an operation, the write an
    operation buffers, and the document it reads by reference. *)
Definition answer (op : TxOp) (db : Db) : Error + Answer op :=
  match op return Error + Answer op with
  | GetSlotLock key => inr (slotLocks db !! key)
  | AwaitCapacity seatingType => fst (getCapacity seatingType db)
  | GetReservations q => inr (docsOf q (reservations db))
  | SetDoc _ => inr tt
  end.

Definition written (op : TxOp) : list Write :=
  match op with
  | SetDoc w => [w]
  | _ => []
  end.

Definition readByRef (op : TxOp) : option string :=
  match op with
  | GetSlotLock key => Some key
  | _ => None
  end.

(** Get available time slots for a date and party size. The loop pushes the
    label of each slot onto the list of every category with room for the
    party; [preferredSeatingType] is accepted and not read. *)
Definition getAvailableTimeSlotsForParty
    (date : Date) (partySize : Z) (preferredSeatingType : option SeatingType)
  : M (list string * list string) :=
  await dailyAvailability ← getDailyAvailability date;
  if isBlocked dailyAvailability then ret ([], [])
  else
    ret (fold_left
           (λ (lists : list string * list string) slot,
              let indoorSlots :=
                if bool_decide (availableIndoor slot >= partySize)
                then fst lists ++ [ts_time slot] else fst lists in
              let balconySlots :=
                if bool_decide (availableBalcony slot >= partySize)
                then snd lists ++ [ts_time slot] else snd lists in
              (indoorSlots, balconySlots))
           (da_timeSlots dailyAvailability) ([], [])).

(** Check if any slots are available for a date. *)
Definition hasAvailability (date : Date) : M bool :=
  await dailyAvailability ← getDailyAvailability date;
  if isBlocked dailyAvailability then ret false
  else ret (existsb isAvailable (da_timeSlots dailyAvailability)).

(** ** reservation.service *)

Record CreateReservationInput := mkCreateReservationInput {
  in_guestName : string;
  in_email : string;
  in_phone : string;
  in_partySize : Z;
  in_date : Date;
  in_time : string;
  in_seatingType : SeatingType;
  in_specialRequests : option string
}.

(** A [Reservation]: the document id with the document's data. *)
Definition Reservation : Type := string * ReservationDoc.

Definition getDoc (reservationId : string) : M (option ReservationDoc) :=
  λ db, (inr (reservations db !! reservationId), db).

(** Create a new reservation. [in_date] is [new Date(input.date)], and [now]
    is what [new Date()] returns during the call. *)
Definition createReservation (now : Date) (input : CreateReservationInput)
  : M Reservation :=
  let reservationDate := in_date input in
  await inWindow ← isDateWithinBookingWindow now reservationDate;
  if negb inWindow then
    throw (ValidationError "Date is outside the allowed booking window")
  else
    let reservationData :=
      {| guestName := in_guestName input;
         email := in_email input;
         phone := in_phone input;
         partySize := JsNumber (in_partySize input);
         date := reservationDate;
         time := in_time input;
         seatingType := in_seatingType input;
         status := confirmed;
         specialRequests := in_specialRequests input;
         createdAt := now;
         updatedAt := now;
         cancelledAt := None;
         cancellationReason := None |} in
    await reservationId ← checkAndReserveSlot now
      reservationDate (in_time input) (in_seatingType input)
      (in_partySize input) reservationData;
    await createdDoc ← getDoc reservationId;
    match createdDoc with
    | None => throw (TypeError "Cannot read properties of undefined")
    | Some createdData => ret (reservationId, createdData)
    end.

(** Get reservation by ID. *)
Definition getReservation (reservationId : string) : M Reservation :=
  await doc ← getDoc reservationId;
  match doc with
  | None => throw (NotFoundError "Reservation not found")
  | Some data => ret (reservationId, data)
  end.

(** [reservationRef.update(updateData)]: the fields present in [updateData]
    replace those of the stored document. *)
Record UpdateData := mkUpdateData {
  u_status : ReservationStatus;
  u_updatedAt : Date;
  u_cancelledAt : option Date;
  u_cancellationReason : option string
}.

Definition applyUpdate (u : UpdateData) (doc : ReservationDoc) : ReservationDoc :=
  {| guestName := guestName doc;
     email := email doc;
     phone := phone doc;
     partySize := partySize doc;
     date := date doc;
     time := time doc;
     seatingType := seatingType doc;
     status := u_status u;
     specialRequests := specialRequests doc;
     createdAt := createdAt doc;
     updatedAt := u_updatedAt u;
     cancelledAt :=
       match u_cancelledAt u with
       | Some t => Some t
       | None => cancelledAt doc
       end;
     cancellationReason :=
       match u_cancellationReason u with
       | Some r => Some r
       | None => cancellationReason doc
       end |}.

Definition updateDoc (reservationId : string) (u : UpdateData) : M unit :=
  λ db, (inr tt,
         mkDb (alter (applyUpdate u) reservationId (reservations db))
              (slotLocks db) (blockedDates db) (settings db)).

Definition deleteDoc (reservationId : string) : M unit :=
  λ db, (inr tt,
         mkDb (delete reservationId (reservations db))
              (slotLocks db) (blockedDates db) (settings db)).

(** A string is truthy when it is present and not empty. *)
Definition truthy (s : option string) : bool :=
  match s with
  | Some r => negb (bool_decide (r = ""))
  | None => false
  end.

Section Lifecycle.

(** [ALLOWED_STATUS_TRANSITIONS] of [@/config/constants] is not in the
    sources: the adjacency table is a parameter, a row being absent for a
    status without an entry. *)
Variable ALLOWED_STATUS_TRANSITIONS : ReservationStatus → option (list ReservationStatus).

(** Validate status transition. *)
Definition validateStatusTransition
    (currentStatus newStatus : ReservationStatus) : bool :=
  let allowedTransitions :=
    default [] (ALLOWED_STATUS_TRANSITIONS currentStatus) in
  bool_decide (newStatus ∈ allowedTransitions).

(** Update reservation status. *)
Definition updateReservationStatus
    (now : Date) (reservationId : string) (newStatus : ReservationStatus)
    (cancellationReason : option string)
  : M Reservation :=
  await reservation ← getDoc reservationId;
  match reservation with
  | None => throw (NotFoundError "Reservation not found")
  | Some currentData =>
      let currentStatus := status currentData in
      if negb (validateStatusTransition currentStatus newStatus) then
        throw (ValidationError
          ("Cannot transition from " +:+ statusName currentStatus
           +:+ " to " +:+ statusName newStatus))
      else
        let updateData :=
          {| u_status := newStatus;
             u_updatedAt := now;
             u_cancelledAt :=
               if bool_decide (newStatus = cancelled) then Some now else None;
             u_cancellationReason :=
               if bool_decide (newStatus = cancelled)
               then (if truthy cancellationReason
                     then cancellationReason else None)
               else None |} in
        await _ ← updateDoc reservationId updateData;
        getReservation reservationId
  end.

(** Cancel a reservation. *)
Definition cancelReservation
    (now : Date) (reservationId : string) (cancellationReason : option string)
  : M Reservation :=
  await reservation ← getReservation reservationId;
  if bool_decide (status (snd reservation) = cancelled) then
    throw (ValidationError "Reservation is already cancelled")
  else if bool_decide (status (snd reservation) = completed)
          || bool_decide (status (snd reservation) = no_show) then
    throw (ValidationError
      ("Cannot cancel a reservation with status: "
       +:+ statusName (status (snd reservation))))
  else
    let reservationDateTime := date (snd reservation) in
    let hoursUntilReservation := getHoursBetween now reservationDateTime in
    await cancellationWindow ← getCancellationWindow;
    if Qlt_le_dec hoursUntilReservation (inject_Z cancellationWindow) then
      throw (PreconditionFailedError
        ("Reservations must be cancelled at least "
         +:+ pretty cancellationWindow +:+ " hours in advance. "
         +:+ "This reservation is in "
         +:+ pretty (Qfloor hoursUntilReservation) +:+ " hours."))
    else
      updateReservationStatus now reservationId cancelled cancellationReason.

End Lifecycle.

(** The filters of [listReservations]; each may be absent. [f_limit] and
    [f_offset] are counts: Firestore rejects a negative limit or offset. *)
Record ListFilters := mkListFilters {
  f_status : option ReservationStatus;
  f_date : option Date;
  f_email : option string;
  f_seatingType : option string;
  f_limit : option nat;
  f_offset : option nat
}.

Definition whereSeatingTypeNamed (s : string) : Clause :=
  λ doc, bool_decide (seatingName (seatingType doc) = s).

(** Insertion sort by a comparison, the element going before the first one
    it is not after. *)
Fixpoint insertBy {A} (le : A → A → bool) (x : A) (l : list A) : list A :=
  match l with
  | [] => [x]
  | y :: l' => if le x y then x :: y :: l' else y :: insertBy le x l'
  end.

Definition sortBy {A} (le : A → A → bool) (l : list A) : list A :=
  foldr (insertBy le) [] l.

(** [orderBy('date', 'desc')]: descending by date; documents of one date
    follow in descending order of document id, the order Firestore gives to
    what the named field leaves tied. *)
Definition dateDescLe (a b : string * ReservationDoc) : bool :=
  if bool_decide (date (snd b) < date (snd a)) then true
  else if bool_decide (date (snd a) < date (snd b)) then false
  else String.leb (fst b) (fst a).

Definition orderByDateDesc (l : list (string * ReservationDoc))
  : list (string * ReservationDoc) :=
  sortBy dateDescLe l.

(** [n || dflt] for an optional count. *)
Definition orDefault (n : option nat) (dflt : nat) : nat :=
  match n with
  | Some (S k) => S k
  | _ => dflt
  end.

(** The optional [where] clauses of [listReservations], in source order; the
    day of the date filter is the local day. *)
Definition listClauses (tz : Z) (filters : option ListFilters) : list Clause :=
  (match filters ≫= f_status with
   | Some s => [whereStatusEq s]
   | None => []
   end)
  ++ (match filters ≫= f_date with
      | Some d =>
          let startOfDay := setHoursMidnight tz d in
          let endOfDay := setHoursEndOfDay tz d in
          [whereDateGe startOfDay; whereDateLe endOfDay]
      | None => []
      end)
  ++ (if truthy (filters ≫= f_email)
      then [whereEmailEq (default "" (filters ≫= f_email))] else [])
  ++ (if truthy (filters ≫= f_seatingType)
      then [whereSeatingTypeNamed (default "" (filters ≫= f_seatingType))]
      else []).

(** List reservations with filters: the page of the ordered query result that
    [limit] and [offset] select, and [snapshot.size]. *)
Definition listReservations (tz : Z) (filters : option ListFilters)
  : M (list Reservation * nat) :=
  let query := listClauses tz filters in
  let limit := orDefault (filters ≫= f_limit) 50 in
  let offset := orDefault (filters ≫= f_offset) 0 in
  await matching ← queryGet query;
  let snapshot := take limit (drop offset (orderByDateDesc matching)) in
  let reservations := map (λ doc, (fst doc, snd doc)) snapshot in
  ret (reservations, length snapshot).

Definition whereDateLt (d : Date) : Clause := λ doc, bool_decide (date doc < d).

(** [orderBy('date').orderBy('time')]: ascending by date, then by time label
    in byte order, then by document id, which orders what the named fields
    leave tied. *)
Definition dateTimeLe (a b : string * ReservationDoc) : bool :=
  if bool_decide (date (snd a) < date (snd b)) then true
  else if bool_decide (date (snd b) < date (snd a)) then false
  else match String.compare (time (snd a)) (time (snd b)) with
       | Lt => true
       | Gt => false
       | Eq => String.leb (fst a) (fst b)
       end.

Definition orderByDateTime (l : list (string * ReservationDoc))
  : list (string * ReservationDoc) :=
  sortBy dateTimeLe l.

(** Get today's reservations. [now] is what [new Date()] returns; [today] is
    the local midnight before it and [tomorrow] the one after. *)
Definition getTodayReservations (tz : Z) (now : Date) : M (list Reservation) :=
  let today := setHoursMidnight tz now in
  let tomorrow := setDateNextDay today in
  await matching ← queryGet
    [ whereDateGe today; whereDateLt tomorrow;
      whereStatusIn [confirmed; seated] ];
  let snapshot := orderByDateTime matching in
  ret (map (λ doc, (fst doc, snd doc)) snapshot).

(** Delete a reservation (admin only). *)
Definition deleteReservation (reservationId : string) : M unit :=
  await reservation ← getDoc reservationId;
  match reservation with
  | None => throw (NotFoundError "Reservation not found")
  | Some _ => deleteDoc reservationId
  end.

(** ** Specification vocabulary *)

(** The capacity of a seating category in the stored settings. *)
Definition capacityOf (s : Settings) (seatingType : SeatingType) : Z :=
  match seatingType with
  | indoor => capacityIndoor s
  | balcony => capacityBalcony s
  end.

(** Occupying statuses count against capacity; terminal ones do not. *)
Definition occupying (s : ReservationStatus) : bool :=
  match s with
  | confirmed | pending | seated => true
  | completed | cancelled | no_show => false
  end.

Definition terminal (s : ReservationStatus) : bool :=
  match s with
  | completed | cancelled | no_show => true
  | confirmed | pending | seated => false
  end.

(** The number a stored [partySize] stands for; an absent or null field
    stands for no seats. *)
Definition partySizeValue (v : JsNum) : Z :=
  match v with
  | JsNumber n => n
  | JsUndefined | JsNull => 0
  end.

(** A slot key: date key, time label and seating category. *)
Definition SlotKey : Type := string * string * SeatingType.

Definition slotKey (date : Date) (time : string) (seatingType : SeatingType)
  : SlotKey := (formatDateKey date, time, seatingType).

Definition slotKeyOf (doc : ReservationDoc) : SlotKey :=
  slotKey (date doc) (time doc) (seatingType doc).

(** The id of the slot-lock document of a slot. *)
Definition slotLockId (date : Date) (time : string) (seatingType : SeatingType)
  : string :=
  formatDateKey date +:+ "_" +:+ time +:+ "_" +:+ seatingName seatingType.

(** The seats a collection of reservations occupies in a slot: the sum of the
    party sizes of the reservations of that slot whose status is occupying. *)
Definition occupancy (coll : gmap string ReservationDoc) (k : SlotKey) : Z :=
  map_fold
    (λ _ doc acc,
       if bool_decide (slotKeyOf doc = k) && occupying (status doc)
       then acc + partySizeValue (partySize doc) else acc)
    0 coll.

(** No slot holds more than the capacity of its seating category. *)
Definition withinCapacity (db : Db) : Prop :=
  ∀ k : SlotKey, occupancy (reservations db) k ≤ capacityOf (settings db) (snd k).

Definition succeeds {A} (r : (Error + A) * Db) : Prop :=
  ∃ a, fst r = inr a.

(** The data-model invariant of a reservation under given settings. *)
Definition validReservation (s : Settings) (doc : ReservationDoc) : Prop :=
  (∃ n, partySize doc = JsNumber n ∧ 1 ≤ n) ∧ time doc ∈ timeSlots s.

(** The clauses of the slot query that [calculateSlotAvailability] and
    [checkAndReserveSlot] both build. *)
Definition slotQuery (date : Date) (time : string) (seatingType : SeatingType)
  : list Clause :=
  [ whereDateGe (getStartOfDay date); whereDateLe (getEndOfDay date);
    whereTimeEq time; whereSeatingTypeEq seatingType;
    whereStatusIn [confirmed; pending; seated] ].

Definition exhaustedMessage (remaining : Z) : string :=
  "This time slot is fully booked. Only "
  +:+ pretty (Z.max 0 remaining) +:+ " seats remaining.".

(** The database without one reservation document. *)
Definition without (id : string) (db : Db) : Db :=
  mkDb (delete id (reservations db)) (slotLocks db) (blockedDates db) (settings db).

(** The document [createReservation] hands to the transaction. *)
Definition reservationDataOf (now : Date) (input : CreateReservationInput)
  : ReservationDoc :=
  {| guestName := in_guestName input;
     email := in_email input;
     phone := in_phone input;
     partySize := JsNumber (in_partySize input);
     date := in_date input;
     time := in_time input;
     seatingType := in_seatingType input;
     status := confirmed;
     specialRequests := in_specialRequests input;
     createdAt := now;
     updatedAt := now;
     cancelledAt := None;
     cancellationReason := None |}.

Definition inputKey (input : CreateReservationInput) : SlotKey :=
  slotKey (in_date input) (in_time input) (in_seatingType input).

Definition inBookingWindow (s : Settings) (now d : Date) : Prop :=
  getStartOfDay now ≤ d ∧ d ≤ getEndOfDay (now + maxAdvanceBookingDays s * msPerDay).

(** A date has a blocked-date record. *)
Definition blocked (db : Db) (d : Date) : Prop :=
  is_Some (blockedDates db !! formatDateKey d).

(** A date [createReservation] lets through its validation: inside the
    advance-booking window and not blocked. *)
Definition bookable (db : Db) (now d : Date) : Prop :=
  inBookingWindow (settings db) now d ∧ ¬ blocked db d.

#[global] Instance bookable_dec db now d : Decision (bookable db now d).
Proof. unfold bookable, inBookingWindow, blocked. apply _. Defined.

(** The seats left in a slot: capacity less occupancy, not clamped. *)
Definition seatsLeft (db : Db) (k : SlotKey) : Z :=
  capacityOf (settings db) (snd k) - occupancy (reservations db) k.

(** A commit of the reservation transaction: through [createReservation], or
    by a direct call of [checkAndReserveSlot]; [now] is the time at which it
    commits. *)
Inductive Commit :=
  | CreateCommit (now : Date) (input : CreateReservationInput)
  | ReserveCommit (now : Date) (d : Date) (t : string) (s : SeatingType)
      (seats : Z) (reservationData : ReservationDoc).

(** The slot a commit targets, the seats it asks for and the document it
    stores. *)
Definition commitKey (c : Commit) : SlotKey :=
  match c with
  | CreateCommit _ input => inputKey input
  | ReserveCommit _ d t s _ _ => slotKey d t s
  end.

Definition commitSize (c : Commit) : Z :=
  match c with
  | CreateCommit _ input => in_partySize input
  | ReserveCommit _ _ _ _ seats _ => seats
  end.

Definition commitData (c : Commit) : ReservationDoc :=
  match c with
  | CreateCommit now input => reservationDataOf now input
  | ReserveCommit _ _ _ _ _ reservationData => reservationData
  end.

(** The payload of a commit is the reservation its arguments describe: a
    confirmed reservation of that slot for that many seats, as
    [createReservation] builds it. *)
Definition payloadAgrees (c : Commit) : Prop :=
  slotKeyOf (commitData c) = commitKey c
  ∧ partySize (commitData c) = JsNumber (commitSize c)
  ∧ status (commitData c) = confirmed.

Definition runCommit (c : Commit) : M string :=
  match c with
  | CreateCommit now input =>
      await reservation ← createReservation now input;
      ret (fst reservation)
  | ReserveCommit now d t s seats reservationData =>
      checkAndReserveSlot now d t s seats reservationData
  end.

(** The database after one commit that runs alone. *)
Definition commit (db : Db) (c : Commit) : Db := snd (runCommit c db).

(** *** Calls that run at the same time

    The store keeps a version of each slot-lock document, which a committed
    write to it advances. An attempt of a transaction records the version of
    each document it reads by reference; the documents a query returns are
    not recorded, the least the store promises. When the body returns, the
    attempt commits if every recorded version is still current: its buffered
    writes are applied together and the call returns. Otherwise the attempt
    is dropped and the body runs again, while the retry budget lasts; with
    the budget spent the call ends in a conflict. A body that throws ends
    the call with no write. The read [createReservation] makes of the created
    document after the commit changes nothing and is left out. *)

Definition commitNow (c : Commit) : Date :=
  match c with
  | CreateCommit now _ => now
  | ReserveCommit now _ _ _ _ _ => now
  end.

Definition commitLock (c : Commit) : string :=
  match c with
  | CreateCommit _ input =>
      slotLockId (in_date input) (in_time input) (in_seatingType input)
  | ReserveCommit _ d t s _ _ => slotLockId d t s
  end.

(** A call in flight: what was called, and the auto-generated id of the
    reference [db.collection('reservations').doc()] gave it. *)
Record Request := mkRequest {
  rq_commit : Commit;
  rq_ref : string
}.

(** The transaction body of a request. *)
Definition bodyOf (rq : Request) : TxProg unit :=
  match rq_commit rq with
  | CreateCommit now input =>
      reserveBody now (in_date input) (in_time input) (in_seatingType input)
        (in_partySize input) (reservationDataOf now input)
        (slotLockId (in_date input) (in_time input) (in_seatingType input))
        (rq_ref rq)
  | ReserveCommit now d t s seats reservationData =>
      reserveBody now d t s seats reservationData (slotLockId d t s) (rq_ref rq)
  end.

Record Attempt := mkAttempt {
  rest : TxProg unit;
  seen : list (string * nat);
  buffered : list Write
}.

Inductive CallState :=
  | NotStarted
  | Running (retriesLeft : nat) (a : Attempt)
  | Returned (id : string)
  | Thrown (e : Error)
  | Conflict.

Record World := mkWorld {
  store : Db;
  versions : string → nat;
  calls : list CallState
}.

Definition firstAttempt (body : TxProg unit) : Attempt :=
  {| rest := body; seen := []; buffered := [] |}.

(** Every version an attempt recorded is the current one. *)
Definition stillCurrent (versions : string → nat) (seen : list (string * nat))
  : bool :=
  forallb (λ kv, Nat.eqb (versions (fst kv)) (snd kv)) seen.

(** The versions after a write has been applied. *)
Definition advance (versions : string → nat) (w : Write) : string → nat :=
  match w with
  | SetReservation _ _ => versions
  | MergeSlotLock key _ _ =>
      λ k, if bool_decide (k = key) then S (versions k) else versions k
  end.

(** One step of one call. A call made through [createReservation] starts
    with the validation of its date; a direct call starts with its
    transaction. *)
Definition stepCall (retries : nat) (body : Request → TxProg unit)
    (rq : Request) (db : Db) (vs : string → nat) (st : CallState)
  : Db * (string → nat) * CallState :=
  match st with
  | NotStarted =>
      match rq_commit rq with
      | CreateCommit now input =>
          match fst (isDateWithinBookingWindow now (in_date input) db) with
          | inr true => (db, vs, Running retries (firstAttempt (body rq)))
          | inr false =>
              (db, vs,
               Thrown (ValidationError "Date is outside the allowed booking window"))
          | inl e => (db, vs, Thrown e)
          end
      | ReserveCommit _ _ _ _ _ _ =>
          (db, vs, Running retries (firstAttempt (body rq)))
      end
  | Running retriesLeft a =>
      match rest a with
      | TxDo op k =>
          match answer op db with
          | inl e => (db, vs, Thrown e)
          | inr b =>
              (db, vs,
               Running retriesLeft
                 {| rest := k b;
                    seen := seen a ++ match readByRef op with
                                      | Some key => [(key, vs key)]
                                      | None => []
                                      end;
                    buffered := buffered a ++ written op |})
          end
      | TxThrow e => (db, vs, Thrown e)
      | TxReturn _ =>
          if stillCurrent vs (seen a) then
            (fold_left applyWrite (buffered a) db,
             fold_left advance (buffered a) vs,
             Returned (rq_ref rq))
          else
            match retriesLeft with
            | O => (db, vs, Conflict)
            | S n => (db, vs, Running n (firstAttempt (body rq)))
            end
      end
  | Returned _ | Thrown _ | Conflict => (db, vs, st)
  end.

(** The world after the call of the given index has made one step; a
    schedule is the list of the indices that step, in order. *)
Definition stepAt (retries : nat) (body : Request → TxProg unit)
    (requests : list Request) (w : World) (i : nat) : World :=
  match requests !! i, calls w !! i with
  | Some rq, Some st =>
      let '(db, vs, st') := stepCall retries body rq (store w) (versions w) st in
      {| store := db; versions := vs; calls := <[i := st']> (calls w) |}
  | _, _ => w
  end.

Definition startWorld (db : Db) (requests : list Request) : World :=
  {| store := db;
     versions := λ _, O;
     calls := map (λ _, NotStarted) requests |}.

Definition runSchedule (retries : nat) (body : Request → TxProg unit)
    (requests : list Request) (db : Db) (schedule : list nat) : World :=
  fold_left (stepAt retries body requests) schedule (startWorld db requests).

(** The seats of a slot that the calls which have returned asked for. *)
Definition returnedSeats (k : SlotKey) (rq : Request) (st : CallState) : Z :=
  match st with
  | Returned _ =>
      if bool_decide (commitKey (rq_commit rq) = k)
      then commitSize (rq_commit rq) else 0
  | _ => 0
  end.

Fixpoint seatsCommitted (k : SlotKey) (requests : list Request)
    (states : list CallState) : Z :=
  match requests, states with
  | rq :: requests', st :: states' =>
      returnedSeats k rq st + seatsCommitted k requests' states'
  | _, _ => 0
  end.

(** *** The stages of an attempt

    The body of a request after each of its operations, and what is known of
    an attempt at each stage: the version it saw of its slot lock is not
    ahead of the current one, and while that version is current the booked
    count it computed is the occupancy of its slot. *)

Definition commitDate (c : Commit) : Date :=
  match c with
  | CreateCommit _ input => in_date input
  | ReserveCommit _ d _ _ _ _ => d
  end.

Definition commitTime (c : Commit) : string :=
  match c with
  | CreateCommit _ input => in_time input
  | ReserveCommit _ _ t _ _ _ => t
  end.

Definition commitSeating (c : Commit) : SeatingType :=
  match c with
  | CreateCommit _ input => in_seatingType input
  | ReserveCommit _ _ _ s _ _ => s
  end.

Definition writeReservation (rq : Request) : Write :=
  SetReservation (rq_ref rq) (commitData (rq_commit rq)).

Definition writeLock (rq : Request) : Write :=
  MergeSlotLock (commitLock (rq_commit rq)) (rq_ref rq) (commitNow (rq_commit rq)).

Definition stageLockWrite (rq : Request) : TxProg unit :=
  perform _ ← SetDoc (writeLock rq);
  TxReturn tt.

Definition stageWrites (rq : Request) : TxProg unit :=
  perform _ ← SetDoc (writeReservation rq);
  stageLockWrite rq.

Definition stageCheck (rq : Request) (cap : Z)
    (docs : list (string * ReservationDoc)) : TxProg unit :=
  if bool_decide (cap - sumPartySizes docs < commitSize (rq_commit rq)) then
    TxThrow (ResourceExhaustedError (exhaustedMessage (cap - sumPartySizes docs)))
  else stageWrites rq.

Definition stageQuery (rq : Request) (cap : Z) : TxProg unit :=
  perform docs ← GetReservations
    (slotQuery (commitDate (rq_commit rq)) (commitTime (rq_commit rq))
       (commitSeating (rq_commit rq)));
  stageCheck rq cap docs.

Definition stageCapacity (rq : Request) : TxProg unit :=
  perform cap ← AwaitCapacity (commitSeating (rq_commit rq));
  stageQuery rq cap.

Inductive AttemptOk (rq : Request) (db : Db) (vs : string → nat) (cap : Z)
  : Attempt → Prop :=
  | ok_start :
      AttemptOk rq db vs cap (firstAttempt (bodyOf rq))
  | ok_capacity (v : nat) :
      (v ≤ vs (commitLock (rq_commit rq)))%nat →
      AttemptOk rq db vs cap
        {| rest := stageCapacity rq;
           seen := [(commitLock (rq_commit rq), v)]; buffered := [] |}
  | ok_query (v : nat) :
      (v ≤ vs (commitLock (rq_commit rq)))%nat →
      AttemptOk rq db vs cap
        {| rest := stageQuery rq cap;
           seen := [(commitLock (rq_commit rq), v)]; buffered := [] |}
  | ok_check (v : nat) (docs : list (string * ReservationDoc)) :
      (v ≤ vs (commitLock (rq_commit rq)))%nat →
      (vs (commitLock (rq_commit rq)) = v →
       sumPartySizes docs
       = occupancy (reservations db) (commitKey (rq_commit rq))) →
      AttemptOk rq db vs cap
        {| rest := stageCheck rq cap docs;
           seen := [(commitLock (rq_commit rq), v)]; buffered := [] |}
  | ok_lockWrite (v : nat) (booked : Z) :
      (v ≤ vs (commitLock (rq_commit rq)))%nat →
      (vs (commitLock (rq_commit rq)) = v →
       booked = occupancy (reservations db) (commitKey (rq_commit rq))) →
      booked + commitSize (rq_commit rq) ≤ cap →
      AttemptOk rq db vs cap
        {| rest := stageLockWrite rq;
           seen := [(commitLock (rq_commit rq), v)];
           buffered := [writeReservation rq] |}
  | ok_commit (v : nat) (booked : Z) :
      (v ≤ vs (commitLock (rq_commit rq)))%nat →
      (vs (commitLock (rq_commit rq)) = v →
       booked = occupancy (reservations db) (commitKey (rq_commit rq))) →
      booked + commitSize (rq_commit rq) ≤ cap →
      AttemptOk rq db vs cap
        {| rest := TxReturn tt;
           seen := [(commitLock (rq_commit rq), v)];
           buffered := [writeReservation rq; writeLock rq] |}.

(** What is known of a call in each state: until it returns, its reference
    names no stored document. *)
Definition CallOk (rq : Request) (db : Db) (vs : string → nat) (cap : Z)
    (st : CallState) : Prop :=
  match st with
  | Returned _ => True
  | Running _ a =>
      reservations db !! rq_ref rq = None ∧ AttemptOk rq db vs cap a
  | NotStarted | Thrown _ | Conflict => reservations db !! rq_ref rq = None
  end.

(** The worlds that calls on a database [db0] can reach: the store is within
    capacity, its settings are those of [db0], every call is as [CallOk]
    says, and the occupancy of each slot is what it was in [db0] plus the
    seats of the calls that have returned. *)
Definition Consistent (db0 : Db) (requests : list Request) (w : World) : Prop :=
  withinCapacity (store w)
  ∧ settings (store w) = settings db0
  ∧ length (calls w) = length requests
  ∧ (∀ i rq st,
       requests !! i = Some rq → calls w !! i = Some st →
       CallOk rq (store w) (versions w)
         (capacityOf (settings db0) (commitSeating (rq_commit rq))) st)
  ∧ (∀ k, occupancy (reservations (store w)) k
          = occupancy (reservations db0) k
            + seatsCommitted k requests (calls w)).

(** The requests a claim of capacity can be made for: each payload is the
    reservation the arguments describe, and the references are new and
    distinct, as auto-generated ids are. *)
Definition wellFormed (db0 : Db) (requests : list Request) : Prop :=
  Forall (λ rq, payloadAgrees (rq_commit rq)) requests
  ∧ NoDup (map rq_ref requests)
  ∧ Forall (λ rq, reservations db0 !! rq_ref rq = None) requests.

(** A call of one of the operations that create or change reservations and
    delete none, and the database it leaves behind. *)
Inductive Call :=
  | CallCreate (now : Date) (input : CreateReservationInput)
  | CallReserve (now : Date) (d : Date) (t : string) (s : SeatingType)
      (seats : Z) (reservationData : ReservationDoc)
  | CallUpdateStatus (now : Date) (id : string) (newStatus : ReservationStatus)
      (reasonGiven : option string)
  | CallCancel (now : Date) (id : string) (reasonGiven : option string).

Definition runCall
    (table : ReservationStatus → option (list ReservationStatus))
    (db : Db) (c : Call) : Db :=
  match c with
  | CallCreate now input => snd (createReservation now input db)
  | CallReserve now d t s seats reservationData =>
      snd (checkAndReserveSlot now d t s seats reservationData db)
  | CallUpdateStatus now id newStatus reasonGiven =>
      snd (updateReservationStatus table now id newStatus reasonGiven db)
  | CallCancel now id reasonGiven =>
      snd (cancelReservation table now id reasonGiven db)
  end.

(** Modelled from the spec: the rows of [ALLOWED_STATUS_TRANSITIONS] are not
    in the sources; the spec says that cancelled, completed and no-show are
    terminal, with no outbound transitions. *)
Definition terminalRowsEmpty
    (table : ReservationStatus → option (list ReservationStatus)) : Prop :=
  ∀ s, terminal s = true → default [] (table s) = [].

Definition transitionMessage (current new : ReservationStatus) : string :=
  "Cannot transition from " +:+ statusName current
  +:+ " to " +:+ statusName new.

(** The stored document after a status change made at [now]. *)
Definition withStatus (now : Date) (newStatus : ReservationStatus)
    (reasonGiven : option string) (doc : ReservationDoc) : ReservationDoc :=
  {| guestName := guestName doc;
     email := email doc;
     phone := phone doc;
     partySize := partySize doc;
     date := date doc;
     time := time doc;
     seatingType := seatingType doc;
     status := newStatus;
     specialRequests := specialRequests doc;
     createdAt := createdAt doc;
     updatedAt := now;
     cancelledAt :=
       if decide (newStatus = cancelled) then Some now else cancelledAt doc;
     cancellationReason :=
       match reasonGiven with
       | Some r =>
           if decide (newStatus = cancelled ∧ r ≠ "") then Some r
           else cancellationReason doc
       | None => cancellationReason doc
       end |}.

Definition withReservation (id : string) (doc : ReservationDoc) (db : Db) : Db :=
  mkDb (<[id := doc]> (reservations db)) (slotLocks db) (blockedDates db)
       (settings db).

Definition windowMessage (window hoursFloor : Z) : string :=
  "Reservations must be cancelled at least "
  +:+ pretty window +:+ " hours in advance. "
  +:+ "This reservation is in " +:+ pretty hoursFloor +:+ " hours.".

(** Modelled from the spec: the scheduled time of a reservation is its
    calendar date at the time of day that its slot label, as in 18:30, names;
    the cancellation window is the lead time required before it. *)
Definition digitOf (c : Ascii.ascii) : option Z :=
  let n := Z.of_N (Ascii.N_of_ascii c) - 48 in
  if bool_decide (0 ≤ n ≤ 9) then Some n else None.

Definition minutesOfLabel (label : string) : option Z :=
  match label with
  | String h1 (String h2 (String colon (String m1 (String m2 EmptyString)))) =>
      match digitOf h1, digitOf h2, digitOf m1, digitOf m2 with
      | Some a, Some b, Some c, Some d =>
          if bool_decide (Ascii.N_of_ascii colon = 58%N)
          then Some ((10 * a + b) * 60 + (10 * c + d)) else None
      | _, _, _, _ => None
      end
  | _ => None
  end.

Definition scheduledTime (doc : ReservationDoc) : option Date :=
  match minutesOfLabel (time doc) with
  | Some minutes => Some (date doc + minutes * 60000)
  | None => None
  end.

(** The slot record [getDailyAvailability] assembles for one time label. *)
Definition timeSlotOf (db : Db) (d : Date) (t : string) : TimeSlot :=
  let indoorLeft := Z.max 0 (seatsLeft db (slotKey d t indoor)) in
  let balconyLeft := Z.max 0 (seatsLeft db (slotKey d t balcony)) in
  {| ts_time := t;
     availableIndoor := indoorLeft;
     availableBalcony := balconyLeft;
     isAvailable := bool_decide (indoorLeft > 0 ∨ balconyLeft > 0) |}.

(** The page a call of [listReservations] returns, empty when it fails. *)
Definition pageOf (tz : Z) (filters : option ListFilters) (db : Db)
  : list Reservation :=
  match fst (listReservations tz filters db) with
  | inr (page, _) => page
  | inl _ => []
  end.

(** Filters with the given limit and offset, the others as in [filters]. *)
Definition withPaging (filters : option ListFilters) (limit offset : nat)
  : option ListFilters :=
  Some {| f_status := filters ≫= f_status;
          f_date := filters ≫= f_date;
          f_email := filters ≫= f_email;
          f_seatingType := filters ≫= f_seatingType;
          f_limit := Some limit;
          f_offset := Some offset |}.

(** The same calendar day in the local time of the server. *)
Definition sameLocalDay (tz : Z) (a b : Date) : Prop :=
  (a + tz) `div` msPerDay = (b + tz) `div` msPerDay.

(** Ascending by date, then by time label, as a proposition. *)
Definition dateTimeOrdered (a b : ReservationDoc) : Prop :=
  date a < date b ∨ (date a = date b ∧ String.leb (time a) (time b) = true).

(** No stored party size is negative. *)
Definition sizesNonNegative (db : Db) : Prop :=
  ∀ id doc, reservations db !! id = Some doc → 0 ≤ partySizeValue (partySize doc).

(** The seats one reservation document takes in a slot. *)
Definition contribution (doc : ReservationDoc) (k : SlotKey) : Z :=
  if bool_decide (slotKeyOf doc = k) && occupying (status doc)
  then partySizeValue (partySize doc) else 0.

(** ** A worked configuration *)

Definition exSettings : Settings :=
  {| capacityIndoor := 20;
     capacityBalcony := 10;
     timeSlots := ["18:00"; "19:00"; "20:00"];
     maxAdvanceBookingDays := 30;
     cancellationWindowHours := 24 |}.

(** Midnight of day 20000, and ten o'clock three days earlier. *)
Definition exDay : Date := 1728000000000.
Definition exNow : Date := 1727776800000.

Definition exDb : Db :=
  {| reservations := ∅; slotLocks := ∅; blockedDates := ∅;
     settings := exSettings |}.

(** The same, with day 20000 blocked for a private event. *)
Definition exBlockedDb : Db :=
  {| reservations := ∅; slotLocks := ∅;
     blockedDates := {[ formatDateKey exDay := mkBlockedDateDoc (Some "private event") ]};
     settings := exSettings |}.

Definition exInput (seats : Z) (label : string) : CreateReservationInput :=
  {| in_guestName := "Ada";
     in_email := "ada@example.org";
     in_phone := "555-0100";
     in_partySize := seats;
     in_date := exDay;
     in_time := label;
     in_seatingType := balcony;
     in_specialRequests := None |}.

Definition exCall (seats : Z) : Commit :=
  CreateCommit exNow (exInput seats "19:00").

(** A table with empty terminal rows, to run the lifecycle operations on. *)
Definition exTransitions (s : ReservationStatus) : option (list ReservationStatus) :=
  match s with
  | pending => Some [confirmed; cancelled]
  | confirmed => Some [seated; cancelled; no_show]
  | seated => Some [completed]
  | completed | cancelled | no_show => Some []
  end.

(** The database after a party of six booked the balcony at 19:00. *)
Definition exBookedDb : Db := commit exDb (exCall 6).

(** Two calls at the same time for the balcony at 19:00, of six seats each,
    with the ids of their references. *)
Definition exRequests : list Request :=
  [ {| rq_commit := exCall 6; rq_ref := "a" |};
    {| rq_commit := exCall 6; rq_ref := "b" |} ].

(** A race: the two calls take turns until both have read the slot and
    buffered their writes, then the first commits and the second goes on. *)
Definition exRace : list nat :=
  [0; 1; 0; 1; 0; 1; 0; 1; 0; 1; 0; 1; 0; 1; 1; 1; 1; 1]%nat.

(** The body as it would be without the slot lock, neither read nor written.
    It is not in the sources, and is run on the race to show what the lock is
    for. *)
Definition bodyWithoutLock (rq : Request) : TxProg unit :=
  perform totalCapacity ← AwaitCapacity (commitSeating (rq_commit rq));
  perform reservationsSnapshot ← GetReservations
    (slotQuery (commitDate (rq_commit rq)) (commitTime (rq_commit rq))
       (commitSeating (rq_commit rq)));
  if bool_decide (totalCapacity - sumPartySizes reservationsSnapshot
                  < commitSize (rq_commit rq)) then
    TxThrow (ResourceExhaustedError
      (exhaustedMessage (totalCapacity - sumPartySizes reservationsSnapshot)))
  else
    perform _ ← SetDoc (writeReservation rq);
    TxReturn tt.

(** A direct call for one seat whose payload is a reservation of a hundred. *)
Definition exLargeRequest : Request :=
  {| rq_commit := ReserveCommit exNow exDay "19:00" balcony 1
                    (reservationDataOf exNow (exInput 100 "19:00"));
     rq_ref := "a" |}.

(** A party of zero at a time that is not a configured slot. *)
Definition exBadInput : CreateReservationInput := exInput 0 "03:17".

(** The booked reservation with its party size nulled, stored under a
    second id. *)
Definition exNullDoc : ReservationDoc :=
  {| guestName := "Bob"; email := "bob@example.org"; phone := "555-0101";
     partySize := JsNull; date := exDay; time := "19:00";
     seatingType := balcony; status := confirmed; specialRequests := None;
     createdAt := exNow; updatedAt := exNow; cancelledAt := None;
     cancellationReason := None |}.

Definition exNullDb : Db := withReservation "legacy" exNullDoc exBookedDb.

(** A server four hours behind UTC. *)
Definition exOffset : Z := -4 * msPerHour.

(** Twenty-three hours before the booked day. *)
Definition exLate : Date := exDay - 23 * msPerHour.

Definition exCancelledDb : Db :=
  snd (updateReservationStatus exTransitions exNow "0" cancelled (Some "rain")
         exBookedDb).

(** The database after a second party, of three, booked the same slot. *)
Definition exTwoDb : Db := commit exBookedDb (exCall 3).

(** The reservation of the party of six. *)
Definition exDoc : ReservationDoc := reservationDataOf exNow (exInput 6 "19:00").

(** * Properties *)

(** ** Sums of party sizes *)

Lemma orZero_value v : orZero v = partySizeValue v.
Proof.
  destruct v as [| |n]; simpl; try reflexivity.
  destruct (Z.eqb_spec n 0); congruence.
Qed.

Lemma fold_sizes_acc (l : list (string * ReservationDoc)) (a : Z) :
  fold_left (λ sum doc, sum + orZero (partySize (snd doc))) l a
  = a + sumPartySizes l.
Proof.
  unfold sumPartySizes. revert a.
  induction l as [|d l IH]; intros a; simpl; [lia|].
  rewrite (IH (a + _)), (IH (0 + _)). lia.
Qed.

Lemma sumPartySizes_cons d l :
  sumPartySizes (d :: l) = partySizeValue (partySize (snd d)) + sumPartySizes l.
Proof.
  unfold sumPartySizes at 1. simpl.
  rewrite fold_sizes_acc, orZero_value. lia.
Qed.

Lemma sumPartySizes_perm l l' :
  l ≡ₚ l' → sumPartySizes l = sumPartySizes l'.
Proof.
  induction 1 as [|d l l' _ IH|d d' l|l l' l'' _ IH1 _ IH2].
  - reflexivity.
  - rewrite !sumPartySizes_cons. lia.
  - rewrite !sumPartySizes_cons. lia.
  - congruence.
Qed.

Lemma filter_perm {A} (f : A → bool) (l l' : list A) :
  l ≡ₚ l' → List.filter f l ≡ₚ List.filter f l'.
Proof.
  induction 1 as [|x l l' _ IH|x y l|l l' l'' _ IH1 _ IH2]; simpl.
  - reflexivity.
  - destruct (f x); [by constructor | done].
  - destruct (f x), (f y); try reflexivity. apply perm_swap.
  - by etrans.
Qed.

Lemma docsOf_empty q : docsOf q ∅ = [].
Proof. unfold docsOf. by rewrite map_to_list_empty. Qed.

Lemma docsOf_insert q (coll : gmap string ReservationDoc) id doc :
  coll !! id = None →
  docsOf q (<[id := doc]> coll)
  ≡ₚ (if satisfies q doc then [(id, doc)] else []) ++ docsOf q coll.
Proof.
  intros Hfresh. unfold docsOf.
  rewrite (filter_perm _ _ _ (map_to_list_insert coll id doc Hfresh)).
  simpl. by destruct (satisfies q doc).
Qed.

(** ** Calendar days *)

Lemma same_day_range (d x : Date) :
  getStartOfDay d ≤ x ∧ x ≤ getEndOfDay d ↔ x `div` msPerDay = d `div` msPerDay.
Proof.
  unfold getEndOfDay, getStartOfDay, msPerDay.
  pose proof (Z.div_mod d 86400000 ltac:(lia)) as Hd.
  pose proof (Z.mod_pos_bound d 86400000 ltac:(lia)) as Hdb.
  pose proof (Z.div_mod x 86400000 ltac:(lia)) as Hx.
  pose proof (Z.mod_pos_bound x 86400000 ltac:(lia)) as Hxb.
  split; [intros [H1 H2] | intros Heq]; lia.
Qed.

Lemma formatDateKey_eq (d x : Date) :
  formatDateKey x = formatDateKey d ↔ x `div` msPerDay = d `div` msPerDay.
Proof.
  unfold formatDateKey. split; [|congruence].
  intros H. by apply (inj pretty) in H.
Qed.

Lemma statusIn_occupying (s : ReservationStatus) :
  bool_decide (s ∈ [confirmed; pending; seated]) = occupying s.
Proof.
  destruct s; reflexivity.
Qed.

Lemma satisfies_slotQuery (d : Date) (t : string) (s : SeatingType) doc :
  satisfies (slotQuery d t s) doc
  = bool_decide (slotKeyOf doc = slotKey d t s) && occupying (status doc).
Proof.
  unfold satisfies, slotQuery, forallb, whereStatusIn.
  rewrite statusIn_occupying, andb_true_r.
  unfold whereDateGe, whereDateLe, whereTimeEq, whereSeatingTypeEq.
  rewrite !andb_assoc. f_equal.
  unfold slotKeyOf, slotKey.
  apply eq_true_iff_eq.
  rewrite !andb_true_iff, !bool_decide_eq_true.
  split.
  - intros [[[Hge Hle] Ht] Hs].
    assert (Hday : formatDateKey (date doc) = formatDateKey d)
      by (apply formatDateKey_eq, same_day_range; done).
    congruence.
  - intros [= Hday Ht Hs].
    apply formatDateKey_eq, same_day_range in Hday. tauto.
Qed.

(** ** Booked count and occupancy *)

Lemma occupancy_empty k : occupancy ∅ k = 0.
Proof. unfold occupancy. by rewrite map_fold_empty. Qed.

Lemma occupancy_insert (coll : gmap string ReservationDoc) id doc k :
  coll !! id = None →
  occupancy (<[id := doc]> coll) k
  = occupancy coll k
    + (if bool_decide (slotKeyOf doc = k) && occupying (status doc)
       then partySizeValue (partySize doc) else 0).
Proof.
  intros Hfresh. unfold occupancy.
  rewrite map_fold_insert_L; [| |done].
  - destruct (_ && _); lia.
  - intros j1 j2 z1 z2 y _ _ _.
    destruct (_ && _), (_ && _); lia.
Qed.

Lemma bookedCount_occupancy (coll : gmap string ReservationDoc) d t s :
  sumPartySizes (docsOf (slotQuery d t s) coll) = occupancy coll (slotKey d t s).
Proof.
  induction coll as [|id doc coll Hfresh IH] using map_ind.
  - by rewrite docsOf_empty, occupancy_empty.
  - rewrite (sumPartySizes_perm _ _ (docsOf_insert _ _ _ _ Hfresh)).
    rewrite occupancy_insert by done.
    rewrite satisfies_slotQuery.
    destruct (_ && _); simpl.
    + rewrite sumPartySizes_cons. simpl. lia.
    + lia.
Qed.

(** ** The transactional reservation, unfolded *)

Lemma getCapacity_run s db : getCapacity s db = (inr (capacityOf (settings db) s), db).
Proof. by destruct s. Qed.

Lemma calculateSlotAvailability_run d t s db :
  calculateSlotAvailability d t s db
  = (inr {| available := bool_decide (Z.max 0 (seatsLeft db (slotKey d t s)) > 0);
            remainingCapacity := Z.max 0 (seatsLeft db (slotKey d t s));
            totalCapacity := capacityOf (settings db) s;
            bookedCount := occupancy (reservations db) (slotKey d t s) |}, db).
Proof.
  unfold calculateSlotAvailability, bind, queryGet, ret.
  rewrite getCapacity_run. fold (slotQuery d t s). simpl.
  by rewrite bookedCount_occupancy.
Qed.

Lemma checkAndReserveSlot_run now d t s p data db :
  checkAndReserveSlot now d t s p data db
  = let remaining :=
      capacityOf (settings db) s - occupancy (reservations db) (slotKey d t s) in
    if bool_decide (remaining < p) then
      (inl (ResourceExhaustedError (exhaustedMessage remaining)), db)
    else
      let id := fresh (dom (reservations db)) in
      (inr id,
       mkDb (<[id := data]> (reservations db))
            (<[slotLockId d t s := mkSlotLockDoc (Some id) (Some now)]> (slotLocks db))
            (blockedDates db) (settings db)).
Proof.
  unfold checkAndReserveSlot, bind, newReservationRef, runTransaction, tx_bind,
    tx_getSlotLock, tx_await, tx_queryGet.
  rewrite getCapacity_run. simpl.
  fold (slotQuery d t s). rewrite bookedCount_occupancy.
  unfold slotLockId, exhaustedMessage.
  by destruct (bool_decide _).
Qed.

Lemma fresh_reservation_id (coll : gmap string ReservationDoc) :
  coll !! fresh (dom coll) = None.
Proof. apply not_elem_of_dom, is_fresh. Qed.

(** ** Availability of a slot *)

(** C3: for every date, time, seating type and stored reservations,
    [calculateSlotAvailability] returns, leaving the database as it was, a
    booked count equal to the sum of the party sizes of exactly the
    reservations of that slot whose status is confirmed, pending or seated,
    a remaining capacity of [max 0 (totalCapacity - bookedCount)], and
    [available] exactly when the remaining capacity is positive. *)
Theorem calculateSlotAvailability_spec (d : Date) (t : string) (s : SeatingType) (db : Db) :
  ∃ r : AvailabilityResult,
    calculateSlotAvailability d t s db = (inr r, db)
    ∧ totalCapacity r = capacityOf (settings db) s
    ∧ bookedCount r = occupancy (reservations db) (slotKey d t s)
    ∧ remainingCapacity r = Z.max 0 (totalCapacity r - bookedCount r)
    ∧ (available r = true ↔ remainingCapacity r > 0).
Proof.
  rewrite calculateSlotAvailability_run. unfold seatsLeft.
  eexists. split; [reflexivity|]. simpl.
  repeat split; try reflexivity; apply bool_decide_eq_true.
Qed.

(** ** One call of the transactional reservation *)

(** C2: when the remaining capacity recomputed in the transaction is
    strictly less than the party size, [checkAndReserveSlot] fails with the
    capacity-exhausted error that reports the remaining count clamped below
    at 0 and changes nothing; otherwise it returns a new id, the reservations
    are those before plus the payload under that id, and the slot lock of the
    key records the id. *)
Theorem checkAndReserveSlot_outcome
    (now d : Date) (t : string) (s : SeatingType) (p : Z)
    (data : ReservationDoc) (db : Db) :
  let remaining :=
    capacityOf (settings db) s - occupancy (reservations db) (slotKey d t s) in
  (remaining < p →
     checkAndReserveSlot now d t s p data db
     = (inl (ResourceExhaustedError
               ("This time slot is fully booked. Only "
                +:+ pretty (Z.max 0 remaining) +:+ " seats remaining.")), db))
  ∧ (p ≤ remaining →
     ∃ id db',
       checkAndReserveSlot now d t s p data db = (inr id, db')
       ∧ reservations db !! id = None
       ∧ reservations db' = <[id := data]> (reservations db)
       ∧ size (reservations db') = S (size (reservations db))
       ∧ (slotLocks db' !! slotLockId d t s ≫= lastReservationId) = Some id
       ∧ (∀ key, key ≠ slotLockId d t s → slotLocks db' !! key = slotLocks db !! key)
       ∧ blockedDates db' = blockedDates db
       ∧ settings db' = settings db).
Proof.
  intros remaining. rewrite checkAndReserveSlot_run. fold remaining. simpl.
  split; intros Hcmp.
  - by rewrite bool_decide_eq_true_2.
  - rewrite bool_decide_eq_false_2 by lia.
    pose proof (fresh_reservation_id (reservations db)) as Hfresh.
    eexists _, _. split; [reflexivity|]. simpl.
    repeat split; try done.
    + by apply map_size_insert_None.
    + by rewrite lookup_insert_eq.
    + intros key Hkey. by rewrite lookup_insert_ne.
Qed.

(** ** Malformed party sizes *)

Lemma occupancy_stored (coll : gmap string ReservationDoc) id doc k :
  coll !! id = Some doc →
  occupancy coll k
  = occupancy (delete id coll) k
    + (if bool_decide (slotKeyOf doc = k) && occupying (status doc)
       then partySizeValue (partySize doc) else 0).
Proof.
  intros Hin.
  rewrite <- (insert_delete_id coll id doc Hin) at 1.
  apply occupancy_insert, lookup_delete_eq.
Qed.

(** C10: a stored reservation whose [partySize] is missing, null or 0 adds
    nothing to the booked count: [calculateSlotAvailability] reports for every
    slot what it reports without that document, and [checkAndReserveSlot]
    fails, with the same error, exactly when it does without it. *)
Theorem falsy_partySize_contributes_nothing
    (db : Db) (id : string) (doc : ReservationDoc) :
  reservations db !! id = Some doc →
  partySize doc = JsUndefined ∨ partySize doc = JsNull
    ∨ partySize doc = JsNumber 0 →
  ∀ (d : Date) (t : string) (s : SeatingType),
    fst (calculateSlotAvailability d t s db)
    = fst (calculateSlotAvailability d t s (without id db))
    ∧ ∀ now p data e,
        fst (checkAndReserveSlot now d t s p data db) = inl e
        ↔ fst (checkAndReserveSlot now d t s p data (without id db)) = inl e.
Proof.
  intros Hin Hsize d t s.
  assert (Hocc : occupancy (reservations db) (slotKey d t s)
                 = occupancy (reservations (without id db)) (slotKey d t s)).
  { rewrite (occupancy_stored _ _ _ _ Hin). simpl.
    destruct Hsize as [-> | [-> | ->]]; simpl; destruct (_ && _); lia. }
  split.
  - rewrite !calculateSlotAvailability_run. unfold seatsLeft. simpl.
    by rewrite Hocc.
  - intros now p data e. rewrite !checkAndReserveSlot_run.
    rewrite Hocc. simpl.
    by destruct (bool_decide _).
Qed.

(** ** Creation, unfolded *)

Lemma isDateWithinBookingWindow_run now d db :
  isDateWithinBookingWindow now d db = (inr (bool_decide (bookable db now d)), db).
Proof.
  unfold isDateWithinBookingWindow, bind, getSettings, getBlockedDate, ret.
  f_equal. f_equal. symmetry.
  destruct (bool_decide_reflect (bookable db now d)) as [[Hw Hb]|Hn].
  - rewrite (bool_decide_eq_true_2 _ Hw).
    destruct (blockedDates db !! formatDateKey d) as [b|] eqn:Hd; [|done].
    exfalso. apply Hb. unfold blocked. rewrite Hd. by exists b.
  - destruct (blockedDates db !! formatDateKey d) as [b|] eqn:Hd;
      [by rewrite andb_false_r|].
    rewrite andb_true_r. symmetry. apply bool_decide_eq_false.
    intros Hw. apply Hn. split; [done|].
    unfold blocked. rewrite Hd. by intros [? ?].
Qed.

Lemma createReservation_run now input db :
  createReservation now input db
  = if bool_decide (bookable db now (in_date input)) then
      if bool_decide (seatsLeft db (inputKey input) < in_partySize input) then
        (inl (ResourceExhaustedError
                (exhaustedMessage (seatsLeft db (inputKey input)))), db)
      else
        let id := fresh (dom (reservations db)) in
        (inr (id, reservationDataOf now input),
         mkDb (<[id := reservationDataOf now input]> (reservations db))
              (<[slotLockId (in_date input) (in_time input) (in_seatingType input)
                 := mkSlotLockDoc (Some id) (Some now)]> (slotLocks db))
              (blockedDates db) (settings db))
    else
      (inl (ValidationError "Date is outside the allowed booking window"), db).
Proof.
  unfold createReservation, bind at 1.
  rewrite isDateWithinBookingWindow_run.
  destruct (bool_decide _); simpl; [|reflexivity].
  unfold bind. rewrite checkAndReserveSlot_run.
  fold (reservationDataOf now input). unfold seatsLeft, inputKey. simpl.
  destruct (bool_decide _); simpl; [reflexivity|].
  unfold getDoc. simpl. by rewrite lookup_insert_eq.
Qed.

Lemma slotKeyOf_reservationData now input :
  slotKeyOf (reservationDataOf now input) = inputKey input.
Proof. reflexivity. Qed.

Lemma succeeds_create_room now input db :
  succeeds (createReservation now input db) →
  in_partySize input ≤ seatsLeft db (inputKey input)
  ∧ bookable db now (in_date input).
Proof.
  intros [a Ha]. rewrite createReservation_run in Ha.
  destruct (bool_decide_reflect (bookable db now (in_date input)));
    [|done].
  destruct (bool_decide_reflect
              (seatsLeft db (inputKey input) < in_partySize input)); [done|].
  split; [lia | done].
Qed.

(** ** Commits in sequence *)

(** A commit either fails and leaves the database as it was, or finds room
    for its seats and stores its document under a new id. *)
Lemma runCommit_cases c db :
  (¬ succeeds (runCommit c db) ∧ commit db c = db)
  ∨ (succeeds (runCommit c db)
     ∧ commitSize c ≤ seatsLeft db (commitKey c)
     ∧ reservations (commit db c)
       = <[fresh (dom (reservations db)) := commitData c]> (reservations db)
     ∧ settings (commit db c) = settings db).
Proof.
  unfold commit, succeeds.
  destruct c as [now input | now d t s seats data]; simpl.
  - unfold bind. rewrite createReservation_run.
    destruct (bool_decide _); simpl; [|left; split; [by intros [? ?] | done]].
    destruct (bool_decide_reflect
                (seatsLeft db (inputKey input) < in_partySize input)); simpl.
    + left. split; [by intros [? ?] | done].
    + right. split; [by eexists|]. split; [lia | done].
  - rewrite checkAndReserveSlot_run. unfold seatsLeft. simpl.
    destruct (bool_decide_reflect
                (capacityOf (settings db) s
                 - occupancy (reservations db) (slotKey d t s) < seats)); simpl.
    + left. split; [by intros [? ?] | done].
    + right. split; [by eexists|]. split; [lia | done].
Qed.

Lemma occupancy_after_commit c db k :
  payloadAgrees c → succeeds (runCommit c db) →
  occupancy (reservations (commit db c)) k
  = occupancy (reservations db) k
    + (if bool_decide (commitKey c = k) then commitSize c else 0).
Proof.
  intros (Hkey & Hsize & Hstatus) Hok.
  destruct (runCommit_cases c db) as [[Hfail _] | (_ & _ & -> & _)]; [done|].
  rewrite occupancy_insert by apply fresh_reservation_id.
  by rewrite Hkey, Hsize, Hstatus, andb_true_r.
Qed.

Lemma commit_preserves_capacity db c :
  payloadAgrees c → withinCapacity db → withinCapacity (commit db c).
Proof.
  intros Hagree Hinv k.
  destruct (runCommit_cases c db) as [[_ ->] | (Hok & Hroom & _ & Hset)];
    [apply Hinv|].
  rewrite Hset, (occupancy_after_commit _ _ _ Hagree Hok).
  destruct (bool_decide_reflect (commitKey c = k)) as [<-|_].
  - unfold seatsLeft in Hroom. lia.
  - specialize (Hinv k). lia.
Qed.

Lemma seatsLeft_after_commit c db :
  payloadAgrees c → succeeds (runCommit c db) →
  seatsLeft (commit db c) (commitKey c)
  = seatsLeft db (commitKey c) - commitSize c.
Proof.
  intros Hagree Hok. unfold seatsLeft.
  rewrite (occupancy_after_commit _ _ _ Hagree Hok).
  destruct (runCommit_cases c db) as [[Hfail _] | (_ & _ & _ & ->)]; [done|].
  rewrite bool_decide_eq_true_2 by done. lia.
Qed.

Lemma create_payloadAgrees now input : payloadAgrees (CreateCommit now input).
Proof. by repeat split. Qed.

(** ** Calls that run at the same time *)

(** Run alone on a snapshot, with its writes applied together at the end, the
    program of the body is the transaction of [checkAndReserveSlot]. *)
Lemma checkAndReserveSlot_as_program now d t s p data db :
  checkAndReserveSlot now d t s p data db
  = (await reservationRef ← newReservationRef;
     await _ ← runTransaction
       (runAlone (reserveBody now d t s p data (slotLockId d t s) reservationRef));
     ret reservationRef) db.
Proof.
  unfold checkAndReserveSlot, reserveBody, slotLockId, bind, newReservationRef,
    runTransaction.
  simpl. unfold tx_bind, tx_getSlotLock, tx_await, tx_queryGet.
  destruct (getCapacity s db) as [[e|cap] db']; simpl; [reflexivity|].
  by destruct (bool_decide _).
Qed.

Lemma bodyOf_stages rq :
  bodyOf rq
  = perform _ ← GetSlotLock (commitLock (rq_commit rq)); stageCapacity rq.
Proof. destruct rq as [[now input|now d t s p data] ref]; reflexivity. Qed.

Lemma commitKey_parts c :
  commitKey c = slotKey (commitDate c) (commitTime c) (commitSeating c).
Proof. by destruct c. Qed.

Lemma commitLock_parts c :
  commitLock c = slotLockId (commitDate c) (commitTime c) (commitSeating c).
Proof. by destruct c. Qed.

(** Requests for one slot use one lock document. *)
Lemma same_key_same_lock c c' :
  commitKey c = commitKey c' → commitLock c = commitLock c'.
Proof.
  rewrite !commitKey_parts, !commitLock_parts. unfold slotKey, slotLockId.
  by intros [= -> -> ->].
Qed.

Lemma payload_contribution c k :
  payloadAgrees c →
  (if bool_decide (slotKeyOf (commitData c) = k) && occupying (status (commitData c))
   then partySizeValue (partySize (commitData c)) else 0)
  = if bool_decide (commitKey c = k) then commitSize c else 0.
Proof.
  intros (-> & -> & ->). simpl. by rewrite andb_true_r.
Qed.

(** One step of a call either leaves the store as it is, or commits the two
    writes of an attempt whose booked count is the occupancy of the moment. *)
Lemma stepCall_outcome retries rq db vs st cap :
  capacityOf (settings db) (commitSeating (rq_commit rq)) = cap →
  CallOk rq db vs cap st →
  (∃ st', stepCall retries bodyOf rq db vs st = (db, vs, st')
          ∧ CallOk rq db vs cap st'
          ∧ ∀ k, returnedSeats k rq st' = returnedSeats k rq st)
  ∨ (occupancy (reservations db) (commitKey (rq_commit rq))
       + commitSize (rq_commit rq) ≤ cap
     ∧ reservations db !! rq_ref rq = None
     ∧ (∀ k, returnedSeats k rq st = 0)
     ∧ stepCall retries bodyOf rq db vs st
       = (applyWrite (applyWrite db (writeReservation rq)) (writeLock rq),
          advance vs (writeLock rq),
          Returned (rq_ref rq))).
Proof.
  intros Hcap Hok.
  destruct st as [|n a|id|e|]; simpl in Hok.
  - left. unfold stepCall.
    destruct (rq_commit rq) as [now input|now d t s p data] eqn:Hc.
    + rewrite isDateWithinBookingWindow_run. simpl.
      destruct (bool_decide _); eexists; (split; [reflexivity|]);
        (split; [|done]); simpl; [|done].
      split; [done | constructor].
    + eexists. split; [reflexivity|]. split; [|done].
      simpl. split; [done | constructor].
  - destruct Hok as [Hfresh Hat].
    destruct Hat as [|v Hv|v Hv|v docs Hv Hdocs|v b Hv Hb Hroom|v b Hv Hb Hroom].
    + left. unfold stepCall, firstAttempt. cbn [rest seen buffered].
      rewrite bodyOf_stages. cbn.
      eexists. split; [reflexivity|]. split; [|done].
      split; [done|]. by constructor.
    + left. unfold stepCall. cbn [rest seen buffered]. unfold stageCapacity.
      cbn [answer]. rewrite getCapacity_run, Hcap. cbn.
      eexists. split; [reflexivity|]. split; [|done].
      split; [done|]. by constructor.
    + left. unfold stepCall. cbn [rest seen buffered]. unfold stageQuery.
      cbn.
      eexists. split; [reflexivity|]. split; [|done].
      split; [done|]. constructor; [done|].
      intros _. rewrite commitKey_parts. apply bookedCount_occupancy.
    + left. unfold stepCall. cbn [rest seen buffered]. unfold stageCheck.
      destruct (bool_decide_reflect
                  (cap - sumPartySizes docs < commitSize (rq_commit rq)))
        as [Hfull|Hroom].
      * eexists. split; [reflexivity|]. by split.
      * unfold stageWrites. cbn.
        eexists. split; [reflexivity|]. split; [|done].
        split; [done|]. apply (ok_lockWrite _ _ _ _ v (sumPartySizes docs));
          [done | done | lia].
    + left. unfold stepCall. cbn [rest seen buffered]. unfold stageLockWrite.
      cbn.
      eexists. split; [reflexivity|]. split; [|done].
      split; [done|]. by apply (ok_commit _ _ _ _ v b).
    + unfold stepCall. cbn [rest seen buffered]. unfold stillCurrent. cbn.
      destruct (Nat.eqb_spec (vs (commitLock (rq_commit rq))) v) as [Hcur|Hold].
      * right. cbn. rewrite <- (Hb Hcur). by repeat split.
      * left. cbn. destruct n as [|n].
        -- eexists. split; [reflexivity|]. by split.
        -- eexists. split; [reflexivity|]. split; [|done].
           split; [done | constructor].
  - left. eexists. by repeat split.
  - left. eexists. by repeat split.
  - left. eexists. by repeat split.
Qed.

Lemma seatsCommitted_insert k requests states i rq st st' :
  requests !! i = Some rq → states !! i = Some st →
  seatsCommitted k requests (<[i := st']> states)
  = seatsCommitted k requests states
    - returnedSeats k rq st + returnedSeats k rq st'.
Proof.
  revert states i.
  induction requests as [|rq0 requests IH]; intros [|st0 states] [|i];
    simpl; try done.
  - intros [= ->] [= ->]. lia.
  - intros Hrq Hst. rewrite (IH _ _ Hrq Hst). lia.
Qed.

Lemma seatsCommitted_start k requests :
  seatsCommitted k requests (map (λ _, NotStarted) requests) = 0.
Proof. induction requests as [|rq requests IH]; simpl; [done | by rewrite IH]. Qed.

Lemma startWorld_consistent db0 requests :
  withinCapacity db0 → wellFormed db0 requests →
  Consistent db0 requests (startWorld db0 requests).
Proof.
  intros Hwithin (_ & _ & Hfresh).
  split; [done|]. split; [done|]. split; [apply length_map|]. split.
  - intros i rq st Hrq Hst. simpl in Hst.
    rewrite list_lookup_fmap, Hrq in Hst. injection Hst as <-. simpl.
    rewrite Forall_forall in Hfresh. apply Hfresh.
    by eapply list_elem_of_lookup_2.
  - intros k. simpl. rewrite seatsCommitted_start. lia.
Qed.

(** What is known of a call survives the commit of another call. *)
Lemma CallOk_after_commit rq rq' db vs cap st :
  payloadAgrees (rq_commit rq') →
  reservations db !! rq_ref rq' = None →
  rq_ref rq ≠ rq_ref rq' →
  CallOk rq db vs cap st →
  CallOk rq (applyWrite (applyWrite db (writeReservation rq')) (writeLock rq'))
    (advance vs (writeLock rq')) cap st.
Proof.
  intros Hagree Hfresh' Hne Hok.
  assert (Hfresh : reservations db !! rq_ref rq = None →
            reservations (applyWrite (applyWrite db (writeReservation rq'))
                            (writeLock rq')) !! rq_ref rq = None).
  { intros H. simpl. by rewrite lookup_insert_ne. }
  assert (Hmono : ∀ v, (v ≤ vs (commitLock (rq_commit rq)))%nat →
            (v ≤ advance vs (writeLock rq') (commitLock (rq_commit rq)))%nat).
  { intros v Hv. simpl. destruct (bool_decide _); lia. }
  assert (Hocc : ∀ v (b : Z),
            (v ≤ vs (commitLock (rq_commit rq)))%nat →
            (vs (commitLock (rq_commit rq)) = v →
             b = occupancy (reservations db) (commitKey (rq_commit rq))) →
            advance vs (writeLock rq') (commitLock (rq_commit rq)) = v →
            b = occupancy
                  (reservations
                     (applyWrite (applyWrite db (writeReservation rq'))
                        (writeLock rq')))
                  (commitKey (rq_commit rq))).
  { intros v b Hv Hb. simpl.
    destruct (bool_decide_reflect
                (commitLock (rq_commit rq) = commitLock (rq_commit rq')))
      as [Hlock|Hlock]; [lia|].
    intros Hcur. rewrite occupancy_insert by done.
    rewrite (payload_contribution _ _ Hagree).
    rewrite bool_decide_eq_false_2.
    - rewrite (Hb Hcur). lia.
    - intros Hkey. apply Hlock. symmetry. by apply same_key_same_lock. }
  destruct st as [|n a|id|e|]; simpl in *; auto.
  destruct Hok as [Hf Hat]. split; [auto|].
  destruct Hat as [|v Hv|v Hv|v docs Hv Hdocs|v b Hv Hb Hroom|v b Hv Hb Hroom].
  - constructor.
  - constructor. by apply Hmono.
  - constructor. by apply Hmono.
  - constructor; [by apply Hmono|]. by apply Hocc.
  - apply (ok_lockWrite _ _ _ _ v b); [by apply Hmono | by apply Hocc | done].
  - apply (ok_commit _ _ _ _ v b); [by apply Hmono | by apply Hocc | done].
Qed.

Lemma distinct_refs requests i j rq rq' :
  NoDup (map rq_ref requests) →
  requests !! i = Some rq → requests !! j = Some rq' → i ≠ j →
  rq_ref rq ≠ rq_ref rq'.
Proof.
  intros Hnodup Hi Hj Hij Heq. apply Hij.
  apply (NoDup_lookup _ i j (rq_ref rq) Hnodup).
  - by rewrite list_lookup_fmap, Hi.
  - by rewrite list_lookup_fmap, Hj, Heq.
Qed.

(** Every step of every call keeps the world consistent. *)
Lemma stepAt_consistent retries db0 requests w i :
  wellFormed db0 requests →
  Consistent db0 requests w →
  Consistent db0 requests (stepAt retries bodyOf requests w i).
Proof.
  intros (Hagree & Hnodup & _) (Hwithin & Hset & Hlen & Hcalls & Hseats).
  unfold stepAt.
  destruct (requests !! i) as [rq|] eqn:Hrq; [|by repeat split].
  destruct (calls w !! i) as [st|] eqn:Hst; [|by repeat split].
  assert (Hcap : capacityOf (settings (store w)) (commitSeating (rq_commit rq))
                 = capacityOf (settings db0) (commitSeating (rq_commit rq)))
    by (by rewrite Hset).
  destruct (stepCall_outcome retries rq (store w) (versions w) st _ Hcap
              (Hcalls i rq st Hrq Hst))
    as [(st' & -> & Hok' & Hsame) | (Hroom & Hfresh & Hzero & ->)];
    cbv beta iota zeta; unfold Consistent; cbn [store versions calls].
  - split; [done|]. split; [done|]. split; [by rewrite length_insert|]. split.
    + intros j rq' st'' Hrq' Hst''. simpl in *.
      destruct (decide (i = j)) as [<-|Hij].
      * rewrite list_lookup_insert_eq in Hst''
          by (by eapply lookup_lt_Some).
        injection Hst'' as <-. rewrite Hrq in Hrq'. by injection Hrq' as <-.
      * rewrite list_lookup_insert_ne in Hst'' by done. by eapply Hcalls.
    + intros k. simpl.
      rewrite (seatsCommitted_insert k _ _ _ _ _ _ Hrq Hst), Hsame, Hseats. lia.
  - rewrite Forall_forall in Hagree.
    assert (Hagree_rq : payloadAgrees (rq_commit rq))
      by (apply Hagree; by eapply list_elem_of_lookup_2).
    assert (Hocc : ∀ k,
              occupancy
                (reservations
                   (applyWrite (applyWrite (store w) (writeReservation rq))
                      (writeLock rq))) k
              = occupancy (reservations (store w)) k
                + if bool_decide (commitKey (rq_commit rq) = k)
                  then commitSize (rq_commit rq) else 0).
    { intros k. simpl. rewrite occupancy_insert by done.
      by rewrite (payload_contribution _ _ Hagree_rq). }
    split; [|split; [done|split; [by rewrite length_insert|split]]].
    + intros k. rewrite Hocc. cbn [settings applyWrite].
      destruct (bool_decide_reflect (commitKey (rq_commit rq) = k)) as [<-|_].
      * rewrite commitKey_parts at 2. simpl. rewrite Hset. lia.
      * specialize (Hwithin k). simpl in *. lia.
    + intros j rq' st'' Hrq' Hst''. cbn [store versions calls] in *.
      destruct (decide (i = j)) as [<-|Hij].
      * rewrite list_lookup_insert_eq in Hst''
          by (by eapply lookup_lt_Some).
        by injection Hst'' as <-.
      * rewrite list_lookup_insert_ne in Hst'' by done.
        apply CallOk_after_commit; [done | done | | by eapply Hcalls].
        by apply (distinct_refs requests j i).
    + intros k. cbn [store versions calls].
      rewrite (seatsCommitted_insert k _ _ _ _ _ _ Hrq Hst), Hzero, Hocc, Hseats.
      simpl. lia.
Qed.

Lemma runSchedule_consistent retries db0 requests schedule :
  withinCapacity db0 → wellFormed db0 requests →
  Consistent db0 requests (runSchedule retries bodyOf requests db0 schedule).
Proof.
  intros Hwithin Hwf. unfold runSchedule.
  pose proof (startWorld_consistent _ _ Hwithin Hwf) as Hstart. revert Hstart.
  generalize (startWorld db0 requests).
  induction schedule as [|i schedule IH]; intros w Hw; simpl; [done|].
  apply IH. by apply stepAt_consistent.
Qed.


Lemma solo_step retries rq db vs st :
  stepAt retries bodyOf [rq] {| store := db; versions := vs; calls := [st] |} 0
  = let '(db', vs', st') := stepCall retries bodyOf rq db vs st in
    {| store := db'; versions := vs'; calls := [st'] |}.
Proof. reflexivity. Qed.

Lemma solo_thrown retries rq db vs e n :
  fold_left (stepAt retries bodyOf [rq]) (replicate n 0%nat)
    {| store := db; versions := vs; calls := [Thrown e] |}
  = {| store := db; versions := vs; calls := [Thrown e] |}.
Proof. induction n as [|n IH]; simpl; [done | by rewrite solo_step]. Qed.

(** The transaction of a call that runs alone takes six steps, and ends as
    [checkAndReserveSlot] does when it is given the same reservation id. *)
Lemma solo_transaction retries rq db vs :
  rq_ref rq = fresh (dom (reservations db)) →
  fold_left (stepAt retries bodyOf [rq]) (replicate 6 0%nat)
    {| store := db; versions := vs;
       calls := [Running retries (firstAttempt (bodyOf rq))] |}
  = match checkAndReserveSlot (commitNow (rq_commit rq))
            (commitDate (rq_commit rq)) (commitTime (rq_commit rq))
            (commitSeating (rq_commit rq)) (commitSize (rq_commit rq))
            (commitData (rq_commit rq)) db with
    | (inl e, db') => {| store := db'; versions := vs; calls := [Thrown e] |}
    | (inr id, db') =>
        {| store := db'; versions := advance vs (writeLock rq);
           calls := [Returned id] |}
    end.
Proof.
  intros Href. rewrite checkAndReserveSlot_run. cbv zeta.
  change (replicate 6 0%nat) with (0 :: 0 :: 0 :: replicate 3 0)%nat.
  cbn [fold_left].
  rewrite solo_step.
  unfold stepCall at 1, firstAttempt at 1. cbn [rest seen buffered].
  rewrite bodyOf_stages. cbn [answer readByRef written app].
  rewrite solo_step.
  unfold stepCall at 1. cbn [rest seen buffered]. unfold stageCapacity at 1.
  cbn [answer readByRef written app].
  rewrite getCapacity_run. cbn [fst].
  rewrite solo_step.
  unfold stepCall at 1. cbn [rest seen buffered]. unfold stageQuery at 1.
  cbn [answer readByRef written app].
  unfold stageCheck. rewrite bookedCount_occupancy.
  destruct (bool_decide _).
  - change (replicate 3 0%nat) with (0 :: replicate 2 0)%nat.
    cbn [fold_left]. rewrite solo_step. unfold stepCall at 1.
    cbn [rest]. cbv beta iota. by rewrite solo_thrown.
  - cbn [replicate fold_left]. unfold stageWrites, stageLockWrite.
    rewrite solo_step. unfold stepCall at 1.
    cbn [rest seen buffered answer readByRef written app].
    rewrite solo_step. unfold stepCall at 1.
    cbn [rest seen buffered answer readByRef written app].
    rewrite solo_step. unfold stepCall at 1.
    cbn [rest seen buffered answer readByRef written app firstAttempt].
    unfold stillCurrent. cbn [forallb fst snd].
    rewrite Nat.eqb_refl. cbn [andb].
    unfold writeReservation, writeLock. cbn [fold_left applyWrite advance].
    rewrite Href, commitLock_parts. reflexivity.
Qed.

(** A call that runs alone, with the id [newReservationRef] gives it, ends
    after seven steps as the call of the service does: with the same store,
    returned with the same id or thrown with the same error. *)
Lemma solo_call_is_commit retries c db :
  let rq := {| rq_commit := c; rq_ref := fresh (dom (reservations db)) |} in
  let w := runSchedule retries bodyOf [rq] db (replicate 7 0%nat) in
  store w = commit db c
  ∧ calls w = [match fst (runCommit c db) with
               | inr id => Returned id
               | inl e => Thrown e
               end].
Proof.
  intros rq w.
  assert (Hw : w = match runCommit c db with
                   | (inl e, db') =>
                       {| store := db'; versions := λ _, O; calls := [Thrown e] |}
                   | (inr id, db') =>
                       {| store := db';
                          versions := advance (λ _, O) (writeLock rq);
                          calls := [Returned id] |}
                   end).
  { unfold w, runSchedule, startWorld, runCommit.
    change (replicate 7 0%nat) with (0 :: replicate 6 0)%nat.
    cbn [fold_left map]. rewrite solo_step. unfold stepCall at 1.
    destruct c as [now input|now d t s p data]; cbn [rq rq_commit].
    - rewrite isDateWithinBookingWindow_run. cbn [fst].
      unfold createReservation, bind at 1 2.
      rewrite isDateWithinBookingWindow_run.
      destruct (bool_decide (bookable db now (in_date input))).
      + cbv beta iota. rewrite solo_transaction by done.
        cbn [rq rq_commit commitNow commitDate commitTime commitSeating
               commitSize commitData negb].
        fold (reservationDataOf now input).
        unfold bind.
        rewrite checkAndReserveSlot_run. cbv zeta.
        destruct (bool_decide _); [done|].
        unfold getDoc. cbn [fst snd reservations].
        by rewrite lookup_insert_eq.
      + cbv beta iota. by rewrite solo_thrown.
    - cbv beta iota. rewrite solo_transaction by done.
      cbn [rq rq_commit commitNow commitDate commitTime commitSeating commitSize
             commitData].
      by destruct (checkAndReserveSlot now d t s p data db) as [[e|id] db']. }
  rewrite Hw. unfold commit.
  by destruct (runCommit c db) as [[e|id] db'].
Qed.

(** C1, amended: calls of [createReservation], and calls of
    [checkAndReserveSlot] whose payload is the confirmed reservation their
    arguments describe, run at the same time on a database within capacity,
    each with its own new reservation id. Whatever the retry budget and
    however the steps of the calls interleave, at every point the store is
    within capacity in every slot, the occupancy of every slot is what it was
    at the start plus the seats of the calls that have returned, so that
    these never exceed the seats that were left; and of two calls for one
    slot that together ask for more than the seats left, not both return. *)
Theorem concurrent_calls_within_capacity
    (db0 : Db) (requests : list Request) (retries : nat) (schedule : list nat) :
  withinCapacity db0 →
  wellFormed db0 requests →
  (∀ n : nat,
     let w := runSchedule retries bodyOf requests db0 (take n schedule) in
     withinCapacity (store w)
     ∧ ∀ k : SlotKey,
         occupancy (reservations (store w)) k
         = occupancy (reservations db0) k + seatsCommitted k requests (calls w)
         ∧ seatsCommitted k requests (calls w) ≤ seatsLeft db0 k)
  ∧ (∀ first second : Request,
       requests = [first; second] →
       commitKey (rq_commit first) = commitKey (rq_commit second) →
       seatsLeft db0 (commitKey (rq_commit first))
       < commitSize (rq_commit first) + commitSize (rq_commit second) →
       ∀ id id',
         calls (runSchedule retries bodyOf requests db0 schedule)
         ≠ [Returned id; Returned id']).
Proof.
  intros Hwithin Hwf.
  assert (Hall : ∀ sched,
            let w := runSchedule retries bodyOf requests db0 sched in
            withinCapacity (store w)
            ∧ ∀ k : SlotKey,
                occupancy (reservations (store w)) k
                = occupancy (reservations db0) k
                  + seatsCommitted k requests (calls w)
                ∧ seatsCommitted k requests (calls w) ≤ seatsLeft db0 k).
  { intros sched w.
    destruct (runSchedule_consistent retries db0 requests sched Hwithin Hwf)
      as (Hin & Hset & _ & _ & Hseats).
    fold w in Hin, Hset, Hseats.
    split; [done|]. intros k. split; [done|].
    specialize (Hin k). rewrite Hseats, Hset in Hin. unfold seatsLeft. lia. }
  split; [intros n; apply Hall|].
  intros first second -> Hkey Hlast id id' Hboth.
  destruct (Hall schedule) as [_ Hseats].
  destruct (Hseats (commitKey (rq_commit first))) as [_ Hle].
  rewrite Hboth in Hle. simpl in Hle.
  rewrite bool_decide_eq_true_2 in Hle by done.
  rewrite bool_decide_eq_true_2 in Hle by done.
  lia.
Qed.

(** ** Status transitions *)

Lemma alter_stored (coll : gmap string ReservationDoc) f id doc :
  coll !! id = Some doc → alter f id coll = <[id := f doc]> coll.
Proof.
  intros Hin. apply map_eq. intros j.
  rewrite lookup_alter, lookup_insert.
  destruct (decide (id = j)) as [<-|]; [by rewrite Hin | done].
Qed.

Lemma updateReservationStatus_run table now id newStatus reasonGiven db :
  updateReservationStatus table now id newStatus reasonGiven db
  = match reservations db !! id with
    | None => (inl (NotFoundError "Reservation not found"), db)
    | Some doc =>
        if bool_decide (newStatus ∈ default [] (table (status doc))) then
          (inr (id, withStatus now newStatus reasonGiven doc),
           withReservation id (withStatus now newStatus reasonGiven doc) db)
        else
          (inl (ValidationError (transitionMessage (status doc) newStatus)), db)
    end.
Proof.
  unfold updateReservationStatus, bind at 1, getDoc.
  destruct (reservations db !! id) as [doc|] eqn:Hin; [|reflexivity].
  unfold validateStatusTransition.
  destruct (bool_decide (newStatus ∈ _)); simpl; [|reflexivity].
  unfold bind, updateDoc, getReservation, bind, getDoc. simpl.
  rewrite lookup_alter_eq, Hin. simpl.
  unfold withReservation. rewrite (alter_stored _ _ _ _ Hin).
  assert (Hdoc : applyUpdate
            {| u_status := newStatus; u_updatedAt := now;
               u_cancelledAt :=
                 if bool_decide (newStatus = cancelled) then Some now else None;
               u_cancellationReason :=
                 if bool_decide (newStatus = cancelled)
                 then (if truthy reasonGiven then reasonGiven else None)
                 else None |} doc
          = withStatus now newStatus reasonGiven doc).
  { unfold applyUpdate, withStatus. simpl. f_equal.
    - destruct (decide (newStatus = cancelled)) as [Hc|Hc].
      + by rewrite bool_decide_eq_true_2.
      + by rewrite bool_decide_eq_false_2.
    - destruct reasonGiven as [r|]; simpl.
      + destruct (decide (newStatus = cancelled)) as [Hc|Hc].
        * rewrite bool_decide_eq_true_2 by done.
          destruct (decide (r = "")) as [Hr|Hr].
          -- rewrite bool_decide_eq_true_2 by done. simpl.
             by rewrite decide_False by tauto.
          -- rewrite bool_decide_eq_false_2 by done. simpl.
             by rewrite decide_True by tauto.
        * rewrite bool_decide_eq_false_2 by done.
          by rewrite decide_False by tauto.
      + by destruct (bool_decide _). }
  by rewrite Hdoc.
Qed.

(** C5: [updateReservationStatus] fails as not-found when no reservation has
    the id; when the transition from the current status to the new one is not
    in the adjacency table it fails validation with a message that names both
    states and leaves the database unchanged, which is the case for every
    transition out of a terminal state when the terminal rows of the table
    are empty; otherwise it stores the new status and the update time, and
    on a transition to cancelled also the cancellation time and the reason
    when a non-empty one is given, changing nothing else. *)
Theorem updateReservationStatus_spec
    (table : ReservationStatus → option (list ReservationStatus))
    (now : Date) (id : string) (newStatus : ReservationStatus)
    (reasonGiven : option string) (db : Db) :
  (reservations db !! id = None →
     updateReservationStatus table now id newStatus reasonGiven db
     = (inl (NotFoundError "Reservation not found"), db))
  ∧ (∀ doc, reservations db !! id = Some doc →
       (newStatus ∉ default [] (table (status doc)) →
          updateReservationStatus table now id newStatus reasonGiven db
          = (inl (ValidationError
                    ("Cannot transition from " +:+ statusName (status doc)
                     +:+ " to " +:+ statusName newStatus)), db))
       ∧ (terminalRowsEmpty table → terminal (status doc) = true →
          updateReservationStatus table now id newStatus reasonGiven db
          = (inl (ValidationError
                    ("Cannot transition from " +:+ statusName (status doc)
                     +:+ " to " +:+ statusName newStatus)), db))
       ∧ (newStatus ∈ default [] (table (status doc)) →
          ∃ doc',
            updateReservationStatus table now id newStatus reasonGiven db
            = (inr (id, doc'), withReservation id doc' db)
            ∧ status doc' = newStatus
            ∧ updatedAt doc' = now
            ∧ cancelledAt doc'
              = (if decide (newStatus = cancelled) then Some now
                 else cancelledAt doc)
            ∧ cancellationReason doc'
              = match reasonGiven with
                | Some r =>
                    if decide (newStatus = cancelled ∧ r ≠ "") then Some r
                    else cancellationReason doc
                | None => cancellationReason doc
                end
            ∧ (guestName doc', email doc', phone doc', partySize doc',
               date doc', time doc', seatingType doc', specialRequests doc',
               createdAt doc')
              = (guestName doc, email doc, phone doc, partySize doc,
                 date doc, time doc, seatingType doc, specialRequests doc,
                 createdAt doc))).
Proof.
  rewrite updateReservationStatus_run. split.
  - by intros ->.
  - intros doc ->. repeat split.
    + intros Hnot. by rewrite bool_decide_eq_false_2.
    + intros Hrows Hterm. rewrite (Hrows _ Hterm).
      rewrite bool_decide_eq_false_2; [done | apply not_elem_of_nil].
    + intros Hallowed. rewrite bool_decide_eq_true_2 by done.
      by eexists.
Qed.

(** ** Cancellation *)

Lemma cancelReservation_run table now id reasonGiven db doc :
  reservations db !! id = Some doc →
  cancelReservation table now id reasonGiven db
  = if bool_decide (status doc = cancelled) then
      (inl (ValidationError "Reservation is already cancelled"), db)
    else if bool_decide (status doc = completed)
            || bool_decide (status doc = no_show) then
      (inl (ValidationError ("Cannot cancel a reservation with status: "
                             +:+ statusName (status doc))), db)
    else if Qlt_le_dec (getHoursBetween now (date doc))
                       (inject_Z (cancellationWindowHours (settings db))) then
      (inl (PreconditionFailedError
              (windowMessage (cancellationWindowHours (settings db))
                 (Qfloor (getHoursBetween now (date doc))))), db)
    else updateReservationStatus table now id cancelled reasonGiven db.
Proof.
  intros Hin.
  unfold cancelReservation, bind at 1, getReservation, bind at 1, getDoc.
  rewrite Hin. simpl.
  destruct (bool_decide (status doc = cancelled)); [reflexivity|].
  destruct (_ || _); [reflexivity|].
  unfold bind, getCancellationWindow, bind, getSettings, ret. simpl.
  by destruct (Qlt_le_dec _ _).
Qed.

Lemma update_not_precondition table now id newStatus reasonGiven db msg :
  fst (updateReservationStatus table now id newStatus reasonGiven db)
  ≠ inl (PreconditionFailedError msg).
Proof.
  rewrite updateReservationStatus_run.
  destruct (reservations db !! id); [|done].
  by destruct (bool_decide _).
Qed.

(** The window as the code applies it. For a stored reservation whose
    status is cancelled, completed or no-show, [cancelReservation] fails
    validation whatever the time left; for any other status it fails with the
    precondition-failed error, whose message names the window hours and the
    floor of the hours left, exactly when the hours from now to the instant in
    the [date] field are strictly fewer than the configured window, and with
    at least the window left it is the status update to cancelled. *)
Lemma cancelReservation_window
    (table : ReservationStatus → option (list ReservationStatus))
    (now : Date) (id : string) (reasonGiven : option string)
    (db : Db) (doc : ReservationDoc) :
  reservations db !! id = Some doc →
  let hoursUntil := getHoursBetween now (date doc) in
  let window := cancellationWindowHours (settings db) in
  (terminal (status doc) = true →
     ∃ msg, cancelReservation table now id reasonGiven db
            = (inl (ValidationError msg), db))
  ∧ (terminal (status doc) = false →
       ((hoursUntil < inject_Z window)%Q →
          cancelReservation table now id reasonGiven db
          = (inl (PreconditionFailedError
                    ("Reservations must be cancelled at least "
                     +:+ pretty window +:+ " hours in advance. "
                     +:+ "This reservation is in "
                     +:+ pretty (Qfloor hoursUntil) +:+ " hours.")), db))
       ∧ ((inject_Z window <= hoursUntil)%Q →
          cancelReservation table now id reasonGiven db
          = updateReservationStatus table now id cancelled reasonGiven db)
       ∧ ((∃ msg, fst (cancelReservation table now id reasonGiven db)
                  = inl (PreconditionFailedError msg))
          ↔ (hoursUntil < inject_Z window)%Q)).
Proof.
  intros Hin hoursUntil window.
  rewrite (cancelReservation_run _ _ _ _ _ _ Hin).
  fold hoursUntil window. split.
  - intros Hterm. destruct (status doc); try discriminate; simpl; by eexists.
  - intros Hterm.
    assert (Hc : bool_decide (status doc = cancelled) = false)
      by (destruct (status doc); done).
    assert (Hd : bool_decide (status doc = completed)
                 || bool_decide (status doc = no_show) = false)
      by (destruct (status doc); done).
    rewrite Hc, Hd.
    destruct (Qlt_le_dec hoursUntil (inject_Z window)) as [Hlt|Hge].
    + repeat split; try done.
      * intros Hge. by apply Qlt_not_le in Hlt.
      * intros _. by eexists.
    + repeat split.
      * intros Hlt. by apply Qlt_not_le in Hlt.
      * intros [msg Hmsg]. by apply update_not_precondition in Hmsg.
      * intros Hlt. by apply Qlt_not_le in Hlt.
Qed.

(** C4: [cancelReservation] measures the hours left to the instant in the
    [date] field, the calendar date of the reservation, and never reads its
    [time]. For a stored reservation that is not cancelled, completed or
    no-show, whose seating, on its date at the time of day its slot label
    names, is at least the cancellation window away while the start of its
    date is less than the window away, the call fails with the
    precondition-failed error and reports the hours left to the date; the
    claim, which measures to the date and time, has it proceed to the status
    update. *)
Theorem cancelReservation_measures_to_date
    (table : ReservationStatus → option (list ReservationStatus))
    (now : Date) (id : string) (reasonGiven : option string)
    (db : Db) (doc : ReservationDoc) (seating : Date) :
  reservations db !! id = Some doc →
  terminal (status doc) = false →
  scheduledTime doc = Some seating →
  let window := cancellationWindowHours (settings db) in
  (inject_Z window <= getHoursBetween now seating)%Q →
  (getHoursBetween now (date doc) < inject_Z window)%Q →
  cancelReservation table now id reasonGiven db
  = (inl (PreconditionFailedError
            (windowMessage window (Qfloor (getHoursBetween now (date doc))))),
     db)
  ∧ cancelReservation table now id reasonGiven db
    ≠ updateReservationStatus table now id cancelled reasonGiven db.
Proof.
  intros Hin Hterm _ window _ Hshort.
  assert (Hrun : cancelReservation table now id reasonGiven db
                 = (inl (PreconditionFailedError
                           (windowMessage window
                              (Qfloor (getHoursBetween now (date doc))))), db)).
  { rewrite (cancelReservation_run _ _ _ _ _ _ Hin). fold window.
    replace (bool_decide (status doc = cancelled)) with false
      by (destruct (status doc); done).
    replace (bool_decide (status doc = completed)
             || bool_decide (status doc = no_show)) with false
      by (destruct (status doc); done).
    destruct (Qlt_le_dec _ _) as [_|Hge]; [reflexivity|].
    by apply Qlt_not_le in Hshort. }
  split; [exact Hrun|].
  rewrite Hrun. intros Heq.
  apply (update_not_precondition table now id cancelled reasonGiven db
           (windowMessage window (Qfloor (getHoursBetween now (date doc))))).
  by rewrite <- Heq.
Qed.

(** ** Availability of a day *)

Lemma promiseAll_reads {A B} (f : A → M B) (g : A → B) (l : list A) (db : Db) :
  (∀ x, f x db = (inr (g x), db)) →
  promiseAll (map f l) db = (inr (map g l), db).
Proof.
  intros Hread. induction l as [|x l IH]; simpl; [reflexivity|].
  unfold bind at 1. rewrite Hread.
  unfold bind at 1. by rewrite IH.
Qed.

Lemma timeSlot_read d db t :
  (await indoorAvailability ← calculateSlotAvailability d t indoor;
   await balconyAvailability ← calculateSlotAvailability d t balcony;
   ret {| ts_time := t;
          availableIndoor := remainingCapacity indoorAvailability;
          availableBalcony := remainingCapacity balconyAvailability;
          isAvailable :=
            bool_decide (remainingCapacity indoorAvailability > 0)
            || bool_decide (remainingCapacity balconyAvailability > 0) |}) db
  = (inr (timeSlotOf db d t), db).
Proof.
  unfold bind. rewrite !calculateSlotAvailability_run. simpl.
  unfold ret, timeSlotOf. do 3 f_equal.
  apply eq_true_iff_eq.
  rewrite orb_true_iff, !bool_decide_eq_true. done.
Qed.

Lemma getDailyAvailability_open d db :
  blockedDates db !! formatDateKey d = None →
  getDailyAvailability d db
  = (inr {| da_date := d;
            da_timeSlots := map (timeSlotOf db d) (timeSlots (settings db));
            isBlocked := false;
            notes := None |}, db).
Proof.
  intros Hnone. unfold getDailyAvailability, getBlockedDate.
  unfold bind at 1. cbv beta iota. rewrite Hnone.
  unfold getSettings. unfold bind at 1. cbv beta iota.
  unfold bind at 1.
  by rewrite (promiseAll_reads _ (timeSlotOf db d) _ _ (timeSlot_read d db)).
Qed.

(** C8: on a date with a blocked-date record [getDailyAvailability] returns
    [isBlocked = true], no time slots and the stored reason as notes,
    whatever the reservations and capacities are; on any other date it
    returns, unblocked, one time slot per configured slot, in order, whose
    indoor and balcony availability are the remaining capacities of the two
    categories and which is available exactly when one of them is positive. *)
Theorem getDailyAvailability_spec (d : Date) (db : Db) :
  (∀ blocked, blockedDates db !! formatDateKey d = Some blocked →
     getDailyAvailability d db
     = (inr {| da_date := d; da_timeSlots := []; isBlocked := true;
               notes := reason blocked |}, db))
  ∧ (blockedDates db !! formatDateKey d = None →
     ∃ r, getDailyAvailability d db = (inr r, db)
       ∧ isBlocked r = false
       ∧ length (da_timeSlots r) = length (timeSlots (settings db))
       ∧ ∀ i t, timeSlots (settings db) !! i = Some t →
           ∃ slot, da_timeSlots r !! i = Some slot
             ∧ ts_time slot = t
             ∧ availableIndoor slot
               = Z.max 0 (capacityIndoor (settings db)
                          - occupancy (reservations db) (slotKey d t indoor))
             ∧ availableBalcony slot
               = Z.max 0 (capacityBalcony (settings db)
                          - occupancy (reservations db) (slotKey d t balcony))
             ∧ (isAvailable slot = true
                ↔ availableIndoor slot > 0 ∨ availableBalcony slot > 0)).
Proof.
  split.
  - intros blocked Hblocked. unfold getDailyAvailability, getBlockedDate.
    unfold bind at 1. cbv beta iota. by rewrite Hblocked.
  - intros Hnone. rewrite (getDailyAvailability_open _ _ Hnone).
    eexists. split; [reflexivity|]. simpl.
    split; [done|]. split; [apply length_map|].
    intros i t Hi. exists (timeSlotOf db d t).
    rewrite list_lookup_fmap, Hi. simpl.
    repeat split; try done; apply bool_decide_eq_true.
Qed.

(** ** Listing *)

Lemma reservation_pairs (l : list (string * ReservationDoc)) :
  map (λ doc, (fst doc, snd doc)) l = l.
Proof. induction l as [|[i x] l IH]; simpl; congruence. Qed.

Lemma length_insertBy {A} (le : A → A → bool) x l :
  length (insertBy le x l) = S (length l).
Proof.
  induction l as [|y l IH]; simpl; [done|].
  destruct (le x y); simpl; congruence.
Qed.

Lemma length_sortBy {A} (le : A → A → bool) l :
  length (sortBy le l) = length l.
Proof.
  induction l as [|x l IH]; simpl; [done|].
  by rewrite length_insertBy, IH.
Qed.

(** C9: the [total] that [listReservations] returns is the number of
    reservations of the returned page, the part of the ordered matches that
    the offset (0 when absent) and the limit (50 when absent or 0) select; so
    it is the length of the page, the smaller of the limit and of the number
    of matches past the offset, hence at most the limit and at most, not
    always equal to, the number of reservations that match the filters. *)
Theorem listReservations_total (tz : Z) (filters : option ListFilters) (db : Db) :
  let matching := docsOf (listClauses tz filters) (reservations db) in
  let limit :=
    match filters ≫= f_limit with
    | Some 0%nat => 50%nat
    | Some n => n
    | None => 50%nat
    end in
  let offset :=
    match filters ≫= f_offset with
    | Some n => n
    | None => 0%nat
    end in
  ∃ page total,
    listReservations tz filters db = (inr (page, total), db)
    ∧ page = take limit (drop offset (orderByDateDesc matching))
    ∧ total = length page
    ∧ total = (limit `min` (length matching - offset))%nat
    ∧ (total ≤ limit)%nat
    ∧ (total ≤ length matching)%nat.
Proof.
  intros matching limit offset.
  unfold listReservations, bind, queryGet, ret. simpl.
  fold matching.
  assert (Hlimit : orDefault (filters ≫= f_limit) 50 = limit).
  { unfold limit. by destruct (filters ≫= f_limit) as [[|n]|]. }
  assert (Hoffset : orDefault (filters ≫= f_offset) 0 = offset).
  { unfold offset. by destruct (filters ≫= f_offset) as [[|n]|]. }
  rewrite Hlimit, Hoffset, reservation_pairs.
  unfold orderByDateDesc.
  exists (take limit (drop offset (sortBy dateDescLe matching))),
         (length (take limit (drop offset (sortBy dateDescLe matching)))).
  repeat split; rewrite ?length_take, ?length_drop, ?length_sortBy; lia.
Qed.

Example exBooked_id :
  reservations exBookedDb !! "0" = Some (reservationDataOf exNow (exInput 6 "19:00")).
Proof. vm_compute. reflexivity. Qed.

Example exSecond_fails :
  fst (createReservation exNow (exInput 6 "19:00") exBookedDb)
  = inl (ResourceExhaustedError
           "This time slot is fully booked. Only 4 seats remaining.").
Proof. vm_compute. reflexivity. Qed.

Example exBlocked_key : formatDateKey exDay = "20000".
Proof. vm_compute. reflexivity. Qed.

(** ** Creation on a blocked date *)

(** The transaction itself never reads the blocked dates: with any other
    blocked-date collection it returns the same result and stores the same
    documents. A blocked date is refused by the validation that
    [createReservation] makes before it, or not at all. *)
Lemma checkAndReserveSlot_ignores_blocked now d t s seats data db blocked' :
  let db' := mkDb (reservations db) (slotLocks db) blocked' (settings db) in
  fst (checkAndReserveSlot now d t s seats data db')
  = fst (checkAndReserveSlot now d t s seats data db)
  ∧ reservations (snd (checkAndReserveSlot now d t s seats data db'))
    = reservations (snd (checkAndReserveSlot now d t s seats data db)).
Proof.
  intros db'. rewrite !checkAndReserveSlot_run. simpl.
  by destruct (bool_decide _).
Qed.

(** C6: for every date with a blocked-date record, [createReservation] for a
    reservation on that date fails with the validation error of the booking
    window and leaves the database as it was, so that no reservation is
    created, and [getDailyAvailability] for the date reports it blocked, with
    no time slots and the stored reason. *)
Theorem createReservation_on_blocked_date
    (now : Date) (input : CreateReservationInput) (db : Db)
    (blockedData : BlockedDateDoc) :
  blockedDates db !! formatDateKey (in_date input) = Some blockedData →
  createReservation now input db
  = (inl (ValidationError "Date is outside the allowed booking window"), db)
  ∧ getDailyAvailability (in_date input) db
    = (inr {| da_date := in_date input; da_timeSlots := []; isBlocked := true;
              notes := reason blockedData |}, db).
Proof.
  intros Hblocked. split.
  - rewrite createReservation_run.
    rewrite bool_decide_eq_false_2; [reflexivity|].
    intros [_ Hopen]. apply Hopen. unfold blocked. rewrite Hblocked. by eexists.
  - unfold getDailyAvailability, getBlockedDate.
    unfold bind at 1. cbv beta iota. by rewrite Hblocked.
Qed.

(** ** The shape of a created reservation *)

(** C7, as stated, fails: a party of zero at 03:17, which is not a configured
    slot, is created and stored. *)
Lemma createReservation_accepts_invalid :
  fst (createReservation exNow exBadInput exDb)
    = inr ("0", reservationDataOf exNow exBadInput)
  ∧ reservations (snd (createReservation exNow exBadInput exDb)) !! "0"
    = Some (reservationDataOf exNow exBadInput)
  ∧ ¬ validReservation (settings exDb) (reservationDataOf exNow exBadInput).
Proof.
  split; [vm_compute; reflexivity|]. split; [vm_compute; reflexivity|].
  intros [(n & Hn & Hpos) _]. simpl in Hn. injection Hn as <-. lia.
Qed.

(** C7, amended: a reservation that [createReservation] returns is stored
    under a new id, carries the party size, date, time and seating type of
    the input with status confirmed, its date is in the booking window and
    not blocked, and its party size is at most the seats left in its slot at
    commit time. A reservation created by a direct call of
    [checkAndReserveSlot] is the payload of the call, stored as it is under a
    new id; the party size given as argument is at most the seats left in the
    slot the arguments name, and nothing relates the payload to them. *)
Theorem created_record
    (now : Date) (input : CreateReservationInput)
    (d : Date) (t : string) (s : SeatingType) (seats : Z)
    (reservationData : ReservationDoc) (db db' : Db) (id : string) :
  (∀ doc, createReservation now input db = (inr (id, doc), db') →
     reservations db !! id = None
     ∧ reservations db' = <[id := doc]> (reservations db)
     ∧ partySize doc = JsNumber (in_partySize input)
     ∧ date doc = in_date input
     ∧ time doc = in_time input
     ∧ seatingType doc = in_seatingType input
     ∧ status doc = confirmed
     ∧ inBookingWindow (settings db) now (in_date input)
     ∧ blockedDates db !! formatDateKey (in_date input) = None
     ∧ in_partySize input ≤ seatsLeft db (inputKey input))
  ∧ (checkAndReserveSlot now d t s seats reservationData db = (inr id, db') →
     reservations db !! id = None
     ∧ reservations db' = <[id := reservationData]> (reservations db)
     ∧ seats ≤ seatsLeft db (slotKey d t s)).
Proof.
  split.
  - intros doc Hrun.
    assert (Hok : succeeds (createReservation now input db))
      by (rewrite Hrun; by eexists).
    destruct (succeeds_create_room _ _ _ Hok) as [Hroom [Hwin Hopen]].
    rewrite createReservation_run in Hrun.
    rewrite bool_decide_eq_true_2 in Hrun by done.
    rewrite bool_decide_eq_false_2 in Hrun by lia.
    simpl in Hrun. injection Hrun as <- <- <-. simpl.
    split; [apply fresh_reservation_id|]. repeat (split; [done|]).
    split; [|done].
    unfold blocked in Hopen.
    destruct (blockedDates db !! formatDateKey (in_date input)); [|done].
    exfalso. apply Hopen. by eexists.
  - rewrite checkAndReserveSlot_run. cbv zeta.
    destruct (bool_decide_reflect
                (capacityOf (settings db) s
                 - occupancy (reservations db) (slotKey d t s) < seats));
      intros Hrun; [discriminate|].
    injection Hrun as <- <-. simpl.
    split; [apply fresh_reservation_id|]. split; [done|].
    unfold seatsLeft. simpl. lia.
Qed.

(** ** Derived operations *)

Lemma checkSlotAvailability_canAccommodate d t s seats db :
  ∃ r, checkSlotAvailability d t s seats db
       = (inr (r, bool_decide (remainingCapacity r >= seats)), db)
     ∧ remainingCapacity r = Z.max 0 (seatsLeft db (slotKey d t s)).
Proof.
  unfold checkSlotAvailability, bind.
  rewrite calculateSlotAvailability_run. by eexists.
Qed.

Lemma blocked_day_offers_nothing d db blocked seats :
  blockedDates db !! formatDateKey d = Some blocked →
  hasAvailability d db = (inr false, db)
  ∧ ∀ preferred,
      getAvailableTimeSlotsForParty d seats preferred db = (inr ([], []), db).
Proof.
  intros Hblocked.
  unfold hasAvailability, getAvailableTimeSlotsForParty, bind.
  unfold getDailyAvailability, getBlockedDate, bind.
  by rewrite Hblocked.
Qed.

Lemma deleteReservation_run id db :
  deleteReservation id db
  = match reservations db !! id with
    | None => (inl (NotFoundError "Reservation not found"), db)
    | Some _ => (inr tt, without id db)
    end.
Proof.
  unfold deleteReservation, bind, getDoc.
  by destruct (reservations db !! id).
Qed.

(** A status change to a terminal status takes the party of an occupying
    reservation out of the occupancy of its slot. *)
Lemma terminal_status_frees_seats now id newStatus reasonGiven db doc :
  reservations db !! id = Some doc →
  occupying (status doc) = true → terminal newStatus = true →
  occupancy (reservations
               (withReservation id (withStatus now newStatus reasonGiven doc) db))
            (slotKeyOf doc)
  = occupancy (reservations db) (slotKeyOf doc) - partySizeValue (partySize doc).
Proof.
  intros Hin Hocc Hterm. simpl.
  rewrite (occupancy_stored _ _ _ (slotKeyOf doc) Hin).
  rewrite <- insert_delete_eq.
  rewrite occupancy_insert by apply lookup_delete_eq.
  simpl. rewrite Hocc.
  replace (occupying newStatus) with false by (by destruct newStatus).
  rewrite andb_false_r, andb_true_r, bool_decide_eq_true_2 by done. lia.
Qed.

(** ** The properties on the worked configuration *)

Lemma exDb_within : withinCapacity exDb.
Proof.
  intros [[dk t] s]. simpl. rewrite occupancy_empty. by destruct s.
Qed.

Lemma exTransitions_terminal : terminalRowsEmpty exTransitions.
Proof. intros s. by destruct s. Qed.

Lemma exRequests_wellFormed : wellFormed exDb exRequests.
Proof.
  split; [repeat constructor|]. split; [|by repeat constructor].
  simpl. apply NoDup_cons. split; [|apply NoDup_singleton].
  rewrite list_elem_of_singleton. discriminate.
Qed.

(** On the race the first call returns; the second, whose attempt read the
    slot before that commit, finds the version of its lock stale, runs its
    body again and throws with the four seats that are left; without a retry
    it ends in a conflict. Six seats are taken. *)
Example exRace_outcome :
  calls (runSchedule 5 bodyOf exRequests exDb exRace)
  = [Returned "a";
     Thrown (ResourceExhaustedError
               "This time slot is fully booked. Only 4 seats remaining.")]
  ∧ calls (runSchedule 0 bodyOf exRequests exDb exRace) = [Returned "a"; Conflict]
  ∧ occupancy (reservations (store (runSchedule 5 bodyOf exRequests exDb exRace)))
      (slotKey exDay "19:00" balcony) = 6.
Proof. vm_compute. repeat split; reflexivity. Qed.

(** Without the slot lock both calls of the same race return, and twelve
    seats are taken of ten. *)
Example exRace_without_lock :
  let w := runSchedule 5 bodyWithoutLock exRequests exDb
             [0; 1; 0; 1; 0; 1; 0; 1; 0; 1]%nat in
  calls w = [Returned "a"; Returned "b"]
  ∧ occupancy (reservations (store w)) (slotKey exDay "19:00" balcony) = 12
  ∧ capacityOf (settings (store w)) balcony = 10.
Proof. vm_compute. repeat split; reflexivity. Qed.

(** C1, as stated, fails: a direct call of [checkAndReserveSlot] for one seat
    whose payload is a confirmed reservation of a hundred, alone on the empty
    database, passes the check with its one seat and commits, and the party
    sizes of the committed reservations of the slot then sum to a hundred,
    with a capacity of ten. *)
Lemma reserve_with_larger_payload_overbooks :
  let w := runSchedule 5 bodyOf [exLargeRequest] exDb (replicate 7 0%nat) in
  fst (runCommit (rq_commit exLargeRequest) exDb) = inr "0"
  ∧ calls w = [Returned "a"]
  ∧ occupancy (reservations (store w)) (slotKey exDay "19:00" balcony) = 100
  ∧ capacityOf (settings (store w)) balcony = 10
  ∧ ¬ withinCapacity (store w).
Proof.
  intros w.
  assert (Hocc : occupancy (reservations (store w)) (slotKey exDay "19:00" balcony)
                 = 100) by (vm_compute; reflexivity).
  assert (Hcap : capacityOf (settings (store w)) balcony = 10)
    by (vm_compute; reflexivity).
  split; [vm_compute; reflexivity|]. split; [vm_compute; reflexivity|].
  split; [exact Hocc|]. split; [exact Hcap|].
  intros Hwithin. specialize (Hwithin (slotKey exDay "19:00" balcony)).
  simpl in Hwithin. rewrite Hocc in Hwithin.
  change (capacityBalcony (settings (store w)))
    with (capacityOf (settings (store w)) balcony) in Hwithin.
  rewrite Hcap in Hwithin. lia.
Qed.

Lemma concurrent_calls_within_capacity_witness :
  withinCapacity exDb
  ∧ wellFormed exDb exRequests
  ∧ withinCapacity (store (runSchedule 5 bodyOf exRequests exDb exRace))
  ∧ seatsCommitted (slotKey exDay "19:00" balcony) exRequests
      (calls (runSchedule 5 bodyOf exRequests exDb exRace))
    ≤ seatsLeft exDb (slotKey exDay "19:00" balcony)
  ∧ ∀ id id',
      calls (runSchedule 5 bodyOf exRequests exDb exRace)
      ≠ [Returned id; Returned id'].
Proof.
  destruct (concurrent_calls_within_capacity exDb exRequests 5 exRace
              exDb_within exRequests_wellFormed) as [Hprefix Hrace].
  split; [exact exDb_within|]. split; [exact exRequests_wellFormed|].
  destruct (Hprefix 18%nat) as [Hwithin Hseats].
  split; [exact Hwithin|].
  split; [exact (proj2 (Hseats (slotKey exDay "19:00" balcony)))|].
  apply (Hrace _ _ eq_refl); [reflexivity | vm_compute; reflexivity].
Defined.

Lemma checkAndReserveSlot_outcome_witness :
  checkAndReserveSlot exNow exDay "19:00" balcony 6
    (reservationDataOf exNow (exInput 6 "19:00")) exBookedDb
  = (inl (ResourceExhaustedError
            "This time slot is fully booked. Only 4 seats remaining."),
     exBookedDb)
  ∧ ∃ id db',
      checkAndReserveSlot exNow exDay "19:00" balcony 4
        (reservationDataOf exNow (exInput 4 "19:00")) exBookedDb = (inr id, db')
      ∧ reservations exBookedDb !! id = None
      ∧ size (reservations db') = 2%nat
      ∧ (slotLocks db' !! slotLockId exDay "19:00" balcony ≫= lastReservationId)
        = Some id.
Proof.
  split.
  - apply (checkAndReserveSlot_outcome exNow exDay "19:00" balcony 6
             (reservationDataOf exNow (exInput 6 "19:00")) exBookedDb).
    vm_compute. reflexivity.
  - destruct (proj2 (checkAndReserveSlot_outcome exNow exDay "19:00" balcony 4
                       (reservationDataOf exNow (exInput 4 "19:00")) exBookedDb))
      as (id & db' & Hrun & Hfresh & _ & Hsize & Hlock & _).
    + vm_compute. discriminate.
    + exists id, db'. by repeat split.
Defined.

Lemma cancelReservation_measures_to_date_witness :
  reservations exBookedDb !! "0" = Some exDoc
  ∧ scheduledTime exDoc = Some (exDay + 19 * msPerHour)
  ∧ Qeq (getHoursBetween exLate (exDay + 19 * msPerHour)) (inject_Z 42)
  ∧ cancelReservation exTransitions exLate "0" None exBookedDb
    = (inl (PreconditionFailedError
              ("Reservations must be cancelled at least 24 hours in advance. "
               +:+ "This reservation is in 23 hours.")), exBookedDb).
Proof.
  split; [exact exBooked_id|]. split; [vm_compute; reflexivity|].
  split; [vm_compute; reflexivity|].
  apply (cancelReservation_measures_to_date exTransitions exLate "0" None
           exBookedDb exDoc (exDay + 19 * msPerHour) exBooked_id).
  - reflexivity.
  - vm_compute. reflexivity.
  - vm_compute. discriminate.
  - vm_compute. reflexivity.
Defined.

Lemma updateReservationStatus_spec_witness :
  updateReservationStatus exTransitions exNow "zz" seated None exBookedDb
    = (inl (NotFoundError "Reservation not found"), exBookedDb)
  ∧ updateReservationStatus exTransitions exNow "0" pending None exBookedDb
    = (inl (ValidationError "Cannot transition from confirmed to pending"),
       exBookedDb)
  ∧ updateReservationStatus exTransitions exNow "0" confirmed None exCancelledDb
    = (inl (ValidationError "Cannot transition from cancelled to confirmed"),
       exCancelledDb)
  ∧ ∃ doc',
      updateReservationStatus exTransitions exNow "0" cancelled (Some "rain")
        exBookedDb
      = (inr ("0", doc'), withReservation "0" doc' exBookedDb)
      ∧ status doc' = cancelled
      ∧ cancelledAt doc' = Some exNow
      ∧ cancellationReason doc' = Some "rain".
Proof.
  split; [|split; [|split]].
  - apply (updateReservationStatus_spec exTransitions exNow "zz" seated None
             exBookedDb).
    vm_compute. reflexivity.
  - destruct (proj2 (updateReservationStatus_spec exTransitions exNow "0" pending
                       None exBookedDb) _ exBooked_id) as (Hnot & _).
    apply Hnot. simpl. rewrite !not_elem_of_cons.
    repeat split; try discriminate. apply not_elem_of_nil.
  - assert (Hin : reservations exCancelledDb !! "0"
                  = Some (withStatus exNow cancelled (Some "rain")
                            (reservationDataOf exNow (exInput 6 "19:00"))))
      by (vm_compute; reflexivity).
    destruct (proj2 (updateReservationStatus_spec exTransitions exNow "0"
                       confirmed None exCancelledDb) _ Hin) as (_ & Hterm & _).
    apply Hterm; [exact exTransitions_terminal | reflexivity].
  - destruct (proj2 (updateReservationStatus_spec exTransitions exNow "0"
                       cancelled (Some "rain") exBookedDb) _ exBooked_id)
      as (_ & _ & Hallowed).
    destruct Hallowed as (doc' & Hrun & Hst & _ & Hat & Hreason & _).
    + simpl. rewrite !elem_of_cons. auto.
    + exists doc'. by repeat split.
Defined.

Lemma createReservation_on_blocked_date_witness :
  blockedDates exBlockedDb !! formatDateKey exDay
    = Some (mkBlockedDateDoc (Some "private event"))
  ∧ createReservation exNow (exInput 2 "19:00") exBlockedDb
    = (inl (ValidationError "Date is outside the allowed booking window"),
       exBlockedDb)
  ∧ getDailyAvailability exDay exBlockedDb
    = (inr {| da_date := exDay; da_timeSlots := []; isBlocked := true;
              notes := Some "private event" |}, exBlockedDb).
Proof.
  assert (Hblocked : blockedDates exBlockedDb !! formatDateKey (in_date (exInput 2 "19:00"))
                     = Some (mkBlockedDateDoc (Some "private event"))).
  { vm_compute. reflexivity. }
  split; [exact Hblocked|].
  exact (createReservation_on_blocked_date exNow (exInput 2 "19:00") exBlockedDb
           _ Hblocked).
Defined.

Lemma created_record_witness :
  createReservation exNow (exInput 6 "19:00") exDb
    = (inr ("0", exDoc), exBookedDb)
  ∧ checkAndReserveSlot exNow exDay "19:00" balcony 6 exDoc exDb
    = (inr "0", exBookedDb)
  ∧ reservations exDb !! "0" = None
  ∧ partySize exDoc = JsNumber 6
  ∧ 6 ≤ seatsLeft exDb (inputKey (exInput 6 "19:00"))
  ∧ 6 ≤ seatsLeft exDb (slotKey exDay "19:00" balcony).
Proof.
  assert (Hcreate : createReservation exNow (exInput 6 "19:00") exDb
                    = (inr ("0", exDoc), exBookedDb)).
  { vm_compute. reflexivity. }
  assert (Hreserve : checkAndReserveSlot exNow exDay "19:00" balcony 6 exDoc exDb
                     = (inr "0", exBookedDb)).
  { vm_compute. reflexivity. }
  destruct (created_record exNow (exInput 6 "19:00") exDay "19:00" balcony 6
              exDoc exDb exBookedDb "0") as [Hc Hr].
  destruct (Hc exDoc Hcreate) as (Hfresh & _ & Hsize & _ & _ & _ & _ & _ & _ & Hroom).
  destruct (Hr Hreserve) as (_ & _ & Hroom').
  by repeat split.
Defined.

Lemma getDailyAvailability_spec_witness :
  getDailyAvailability exDay exBlockedDb
    = (inr {| da_date := exDay; da_timeSlots := []; isBlocked := true;
              notes := Some "private event" |}, exBlockedDb)
  ∧ ∃ r, getDailyAvailability exDay exBookedDb = (inr r, exBookedDb)
      ∧ isBlocked r = false
      ∧ length (da_timeSlots r) = 3%nat.
Proof.
  split.
  - apply (proj1 (getDailyAvailability_spec exDay exBlockedDb)
             (mkBlockedDateDoc (Some "private event"))).
    vm_compute. reflexivity.
  - destruct (proj2 (getDailyAvailability_spec exDay exBookedDb))
      as (r & Hrun & Hopen & Hlen & _).
    + vm_compute. reflexivity.
    + exists r. by repeat split.
Defined.

Lemma falsy_partySize_contributes_nothing_witness :
  reservations exNullDb !! "legacy" = Some exNullDoc
  ∧ fst (calculateSlotAvailability exDay "19:00" balcony exNullDb)
    = fst (calculateSlotAvailability exDay "19:00" balcony
             (without "legacy" exNullDb)).
Proof.
  assert (Hin : reservations exNullDb !! "legacy" = Some exNullDoc).
  { vm_compute. reflexivity. }
  split; [exact Hin|].
  apply (falsy_partySize_contributes_nothing exNullDb "legacy" exNullDoc Hin).
  right. left. reflexivity.
Defined.

(** With a limit of one, two matching reservations give a total of one. *)
Example page_total_example :
  let db := commit exBookedDb (exCall 3) in
  let filters := Some (mkListFilters (Some confirmed) None None None (Some 1%nat) None) in
  length (docsOf (listClauses 0 filters) (reservations db)) = 2%nat
  ∧ snd <$> (sum_rect (λ _, option (list Reservation * nat)) (λ _, None) Some
               (fst (listReservations 0 filters db))) = Some 1%nat.
Proof. vm_compute. split; reflexivity. Qed.

(** The day of the date filter is the local day: four hours behind UTC, the
    reservation stored at midnight UTC of day 20000 is of the evening before,
    and is not listed for the morning of day 20000. *)
Example local_day_example :
  let filters d := Some (mkListFilters None (Some d) None None None None) in
  pageOf exOffset (filters (exDay + 12 * msPerHour)) exBookedDb = []
  ∧ pageOf 0 (filters (exDay + 12 * msPerHour)) exBookedDb = [("0", exDoc)]
  ∧ pageOf exOffset (filters (exDay - msPerHour)) exBookedDb = [("0", exDoc)]
  ∧ fst (getTodayReservations exOffset (exDay - msPerHour) exBookedDb)
    = inr [("0", exDoc)].
Proof. vm_compute. repeat split; reflexivity. Qed.

(** * Further properties of the services *)

(** ** Checking a slot before reserving it *)

(** X1: for a party of at least one, [checkSlotAvailability] answers
    [canAccommodate] exactly when [checkAndReserveSlot] on the same database
    succeeds, its availability part is what [calculateSlotAvailability]
    returns, and when the answer is no the reservation fails with the
    capacity-exhausted error that reports the remaining capacity of the
    check. *)
Theorem canAccommodate_iff_reserve_succeeds
    (now d : Date) (t : string) (s : SeatingType) (p : Z)
    (data : ReservationDoc) (db : Db) :
  0 < p →
  ∃ r c,
    checkSlotAvailability d t s p db = (inr (r, c), db)
    ∧ fst (calculateSlotAvailability d t s db) = inr r
    ∧ (c = true ↔ succeeds (checkAndReserveSlot now d t s p data db))
    ∧ (c = false →
       fst (checkAndReserveSlot now d t s p data db)
       = inl (ResourceExhaustedError
                ("This time slot is fully booked. Only "
                 +:+ pretty (remainingCapacity r) +:+ " seats remaining."))).
Proof.
  intros Hp. unfold checkSlotAvailability, bind, succeeds.
  rewrite calculateSlotAvailability_run, checkAndReserveSlot_run.
  eexists _, _. split; [reflexivity|]. split; [reflexivity|].
  unfold seatsLeft. simpl.
  set (left_ := capacityOf (settings db) s
                - occupancy (reservations db) (slotKey d t s)).
  destruct (bool_decide_reflect (left_ < p)) as [Hfull|Hroom]; simpl.
  - split; [|done]. rewrite bool_decide_eq_true. split; [lia | by intros [? ?]].
  - split.
    + rewrite bool_decide_eq_true. split; [by eexists | lia].
    + rewrite bool_decide_eq_false. lia.
Qed.

(** ** Slots offered to a party *)

Lemma party_loop (p : Z) (slots : list TimeSlot) (acc : list string * list string) :
  fold_left
    (λ (lists : list string * list string) slot,
       (if bool_decide (availableIndoor slot >= p)
        then fst lists ++ [ts_time slot] else fst lists,
        if bool_decide (availableBalcony slot >= p)
        then snd lists ++ [ts_time slot] else snd lists))
    slots acc
  = (fst acc ++ map ts_time (filter (λ slot, availableIndoor slot >= p) slots),
     snd acc ++ map ts_time (filter (λ slot, availableBalcony slot >= p) slots)).
Proof.
  revert acc. induction slots as [|slot slots IH]; intros [ins bals]; simpl.
  - by rewrite !app_nil_r.
  - rewrite IH. simpl. rewrite !filter_cons.
    repeat case_bool_decide; repeat case_decide; try done;
      simpl; rewrite <- ?app_assoc; reflexivity.
Qed.

Lemma getAvailableTimeSlotsForParty_open d p preferred db :
  blockedDates db !! formatDateKey d = None →
  getAvailableTimeSlotsForParty d p preferred db
  = (inr (map ts_time
            (filter (λ slot, availableIndoor slot >= p)
               (map (timeSlotOf db d) (timeSlots (settings db)))),
          map ts_time
            (filter (λ slot, availableBalcony slot >= p)
               (map (timeSlotOf db d) (timeSlots (settings db))))), db).
Proof.
  intros Hopen. unfold getAvailableTimeSlotsForParty, bind.
  rewrite (getDailyAvailability_open _ _ Hopen). simpl.
  unfold ret. by rewrite party_loop.
Qed.

Lemma offered_label (P : TimeSlot → Prop) `{∀ slot, Decision (P slot)}
    db d (labels : list string) t :
  t ∈ map ts_time (filter P (map (timeSlotOf db d) labels))
  ↔ t ∈ labels ∧ P (timeSlotOf db d t).
Proof.
  rewrite list_elem_of_fmap. split.
  - intros (slot & -> & Hslot). apply list_elem_of_filter in Hslot as [HP Hin].
    apply list_elem_of_fmap in Hin as (t & -> & Hin). done.
  - intros [Hin HP]. exists (timeSlotOf db d t). split; [done|].
    apply list_elem_of_filter. split; [done|].
    apply list_elem_of_fmap. by exists t.
Qed.

(** X2: on a date that is not blocked [getAvailableTimeSlotsForParty]
    returns, whatever seating preference is passed, for each category the
    configured time labels whose remaining capacity in that category is at
    least the party size, in configured order, and leaves the database as it
    was. *)
Theorem getAvailableTimeSlotsForParty_spec
    (d : Date) (p : Z) (preferred : option SeatingType) (db : Db) :
  blockedDates db !! formatDateKey d = None →
  ∃ indoorSlots balconySlots,
    getAvailableTimeSlotsForParty d p preferred db
    = (inr (indoorSlots, balconySlots), db)
    ∧ (∀ t, t ∈ indoorSlots
            ↔ t ∈ timeSlots (settings db)
              ∧ p ≤ Z.max 0 (seatsLeft db (slotKey d t indoor)))
    ∧ (∀ t, t ∈ balconySlots
            ↔ t ∈ timeSlots (settings db)
              ∧ p ≤ Z.max 0 (seatsLeft db (slotKey d t balcony)))
    ∧ indoorSlots `sublist_of` timeSlots (settings db)
    ∧ balconySlots `sublist_of` timeSlots (settings db).
Proof.
  intros Hopen. rewrite (getAvailableTimeSlotsForParty_open _ _ _ _ Hopen).
  assert (Hlabels : ∀ labels, map ts_time (map (timeSlotOf db d) labels) = labels).
  { intros labels. induction labels as [|t labels IH]; simpl; congruence. }
  eexists _, _. split; [reflexivity|].
  split; [|split; [|split]].
  - intros t. rewrite offered_label. simpl. split; intros [Hin Hge]; (split; [done | lia]).
  - intros t. rewrite offered_label. simpl. split; intros [Hin Hge]; (split; [done | lia]).
  - rewrite <- (Hlabels (timeSlots (settings db))) at 2.
    apply (fmap_sublist ts_time), sublist_filter.
  - rewrite <- (Hlabels (timeSlots (settings db))) at 2.
    apply (fmap_sublist ts_time), sublist_filter.
Qed.

(** ** Whether a date has any availability *)

Lemma hasAvailability_run d db :
  hasAvailability d db
  = (inr (match blockedDates db !! formatDateKey d with
          | Some _ => false
          | None => existsb isAvailable
                      (map (timeSlotOf db d) (timeSlots (settings db)))
          end), db).
Proof.
  destruct (blockedDates db !! formatDateKey d) as [blocked|] eqn:Hkey.
  - by destruct (blocked_day_offers_nothing d db blocked 0 Hkey) as [-> _].
  - unfold hasAvailability, bind.
    by rewrite (getDailyAvailability_open _ _ Hkey).
Qed.

Lemma some_slot_available db d (labels : list string) :
  existsb isAvailable (map (timeSlotOf db d) labels) = true
  ↔ ∃ t, t ∈ labels
         ∧ (0 < seatsLeft db (slotKey d t indoor)
            ∨ 0 < seatsLeft db (slotKey d t balcony)).
Proof.
  rewrite existsb_exists. split.
  - intros (slot & Hin & Hslot).
    apply list_elem_of_In, list_elem_of_fmap in Hin as (t & -> & Hin).
    exists t. split; [done|].
    unfold timeSlotOf in Hslot. simpl in Hslot.
    apply bool_decide_eq_true in Hslot. lia.
  - intros (t & Hin & Hleft). exists (timeSlotOf db d t). split.
    + apply list_elem_of_In, list_elem_of_fmap. by exists t.
    + unfold timeSlotOf. simpl. apply bool_decide_eq_true. lia.
Qed.

(** X3: [hasAvailability] returns true exactly when the date has no
    blocked-date record and some configured time slot has a seat left indoors
    or on the balcony; it leaves the database as it was. *)
Theorem hasAvailability_spec (d : Date) (db : Db) :
  ∃ b : bool,
    hasAvailability d db = (inr b, db)
    ∧ (b = true
       ↔ blockedDates db !! formatDateKey d = None
         ∧ ∃ t, t ∈ timeSlots (settings db)
                ∧ (0 < capacityIndoor (settings db)
                       - occupancy (reservations db) (slotKey d t indoor)
                   ∨ 0 < capacityBalcony (settings db)
                         - occupancy (reservations db) (slotKey d t balcony))).
Proof.
  rewrite hasAvailability_run. eexists. split; [reflexivity|].
  destruct (blockedDates db !! formatDateKey d).
  - split; [done | by intros [? _]].
  - rewrite some_slot_available. unfold seatsLeft. simpl.
    split; [by intros ? | by intros [_ ?]].
Qed.

Lemma nonempty_has_label (l : list string) : l ≠ [] → ∃ t, t ∈ l.
Proof. destruct l as [|t l]; [done|]. intros _. exists t. apply list_elem_of_here. Qed.

(** X4: when [getAvailableTimeSlotsForParty] offers a party of positive size
    some time slot, in one category or the other, [hasAvailability] is true
    for the date; so on a date for which [hasAvailability] is false no such
    party is offered a slot. *)
Theorem offered_slot_has_availability
    (d : Date) (seats : Z) (preferred : option SeatingType) (db : Db)
    (indoorSlots balconySlots : list string) :
  0 < seats →
  fst (getAvailableTimeSlotsForParty d seats preferred db)
  = inr (indoorSlots, balconySlots) →
  indoorSlots ≠ [] ∨ balconySlots ≠ [] →
  fst (hasAvailability d db) = inr true.
Proof.
  intros Hpos Hrun Hne.
  rewrite hasAvailability_run. simpl.
  destruct (blockedDates db !! formatDateKey d) as [blockedData|] eqn:Hkey.
  - destruct (blocked_day_offers_nothing d db blockedData seats Hkey) as [_ Hnone].
    rewrite Hnone in Hrun. simpl in Hrun. injection Hrun as <- <-.
    by destruct Hne.
  - rewrite (getAvailableTimeSlotsForParty_open _ _ _ _ Hkey) in Hrun.
    simpl in Hrun. injection Hrun as <- <-.
    f_equal. apply some_slot_available.
    destruct Hne as [Hne | Hne].
    + destruct (nonempty_has_label _ Hne) as [t Ht].
      apply offered_label in Ht as [Hin Hge]. simpl in Hge.
      exists t. split; [done | left; lia].
    + destruct (nonempty_has_label _ Hne) as [t Ht].
      apply offered_label in Ht as [Hin Hge]. simpl in Hge.
      exists t. split; [done | right; lia].
Qed.

(** ** Ordered query results *)

Section InsertionSort.

Context {A : Type} (le : A → A → bool).
Hypothesis le_total : ∀ a b, le a b = true ∨ le b a = true.
Hypothesis le_trans : ∀ a b c, le a b = true → le b c = true → le a c = true.

Lemma insertBy_perm x l : insertBy le x l ≡ₚ x :: l.
Proof.
  induction l as [|y l IH]; simpl; [done|].
  destruct (le x y); [done|]. rewrite IH. apply perm_swap.
Qed.

Lemma sortBy_perm l : sortBy le l ≡ₚ l.
Proof.
  induction l as [|x l IH]; simpl; [done|].
  by rewrite insertBy_perm, IH.
Qed.

Lemma insertBy_sorted x l :
  StronglySorted (λ a b, le a b = true) l →
  StronglySorted (λ a b, le a b = true) (insertBy le x l).
Proof.
  induction 1 as [|y l Hsorted IH Hall]; simpl.
  - repeat constructor.
  - destruct (le x y) eqn:Hxy.
    + constructor; [by constructor|]. constructor; [done|].
      eapply Forall_impl; [exact Hall|]. intros z Hyz. by eapply le_trans.
    + constructor; [done|].
      rewrite insertBy_perm. constructor; [|done].
      destruct (le_total x y); congruence.
Qed.

Lemma sortBy_sorted l : StronglySorted (λ a b, le a b = true) (sortBy le l).
Proof.
  induction l as [|x l IH]; simpl; [constructor|]. by apply insertBy_sorted.
Qed.

Lemma sortBy_ordered l i j a b :
  (i < j)%nat → sortBy le l !! i = Some a → sortBy le l !! j = Some b →
  le a b = true.
Proof.
  generalize (sortBy_sorted l). generalize (sortBy le l). clear l.
  intros l Hsorted. revert i j.
  induction Hsorted as [|x l _ IH Hall]; intros i j Hij Hi Hj; [done|].
  destruct j as [|j]; [lia|]. destruct i as [|i]; simpl in *.
  - injection Hi as <-. rewrite Forall_forall in Hall.
    apply Hall. by eapply list_elem_of_lookup_2.
  - apply (IH i j); [lia | done | done].
Qed.

End InsertionSort.

Lemma ascii_compare_eq (a b : Ascii.ascii) : Ascii.compare a b = Eq ↔ a = b.
Proof.
  split; [apply Ascii.compare_eq_iff|].
  intros ->. apply N.compare_refl.
Qed.

Lemma string_compare_refl (s : string) : String.compare s s = Eq.
Proof.
  induction s as [|a s IH]; simpl; [done|].
  by rewrite (proj2 (ascii_compare_eq a a) eq_refl).
Qed.

Lemma string_compare_trans (c : comparison) (s1 s2 s3 : string) :
  String.compare s1 s2 = c → String.compare s2 s3 = c → String.compare s1 s3 = c.
Proof.
  revert s2 s3. induction s1 as [|a1 s1 IH]; intros [|a2 s2] [|a3 s3]; simpl;
    try congruence.
  unfold Ascii.compare.
  destruct (N.compare_spec (Ascii.N_of_ascii a1) (Ascii.N_of_ascii a2)),
           (N.compare_spec (Ascii.N_of_ascii a2) (Ascii.N_of_ascii a3)),
           (N.compare_spec (Ascii.N_of_ascii a1) (Ascii.N_of_ascii a3));
    try congruence; try lia; eauto.
Qed.

Lemma string_leb_trans (s1 s2 s3 : string) :
  String.leb s1 s2 = true → String.leb s2 s3 = true → String.leb s1 s3 = true.
Proof.
  unfold String.leb.
  destruct (String.compare s1 s2) eqn:H12; [| |done];
    destruct (String.compare s2 s3) eqn:H23; try done; intros _ _.
  - by rewrite (string_compare_trans Eq _ _ _ H12 H23).
  - apply String.compare_eq_iff in H12 as ->. by rewrite H23.
  - apply String.compare_eq_iff in H23 as <-. by rewrite H12.
  - by rewrite (string_compare_trans Lt _ _ _ H12 H23).
Qed.

Lemma dateTimeLe_spec a b :
  dateTimeLe a b = true
  ↔ date (snd a) < date (snd b)
    ∨ (date (snd a) = date (snd b)
       ∧ (String.compare (time (snd a)) (time (snd b)) = Lt
          ∨ (String.compare (time (snd a)) (time (snd b)) = Eq
             ∧ String.leb (fst a) (fst b) = true))).
Proof.
  unfold dateTimeLe.
  destruct (decide (date (snd a) < date (snd b))) as [Hlt|Hlt].
  { rewrite bool_decide_eq_true_2 by done. split; [by left | done]. }
  rewrite bool_decide_eq_false_2 by done.
  destruct (decide (date (snd b) < date (snd a))) as [Hgt|Hgt].
  { rewrite bool_decide_eq_true_2 by done.
    split; [done | intros [? | [? _]]; lia]. }
  rewrite bool_decide_eq_false_2 by done.
  destruct (String.compare (time (snd a)) (time (snd b))); split.
  - intros Hid. right. split; [lia | by right].
  - intros [? | [_ [? | [_ ?]]]]; [lia | done | done].
  - intros _. right. split; [lia | by left].
  - done.
  - done.
  - intros [? | [_ [? | [? _]]]]; [lia | done | done].
Qed.

Lemma dateTimeLe_total a b : dateTimeLe a b = true ∨ dateTimeLe b a = true.
Proof.
  rewrite !dateTimeLe_spec.
  destruct (Z.lt_trichotomy (date (snd a)) (date (snd b))) as [?|[Heq|?]];
    [auto | | auto].
  pose proof (String.compare_antisym (time (snd a)) (time (snd b))) as Hanti.
  destruct (String.compare (time (snd b)) (time (snd a))) eqn:Hba;
    simpl in Hanti.
  - destruct (String.leb_total (fst a) (fst b)); [left | right]; right;
      (split; [done | by right]).
  - right. right. split; [done | by left].
  - left. right. split; [done | by left].
Qed.

Lemma dateTimeLe_trans a b c :
  dateTimeLe a b = true → dateTimeLe b c = true → dateTimeLe a c = true.
Proof.
  rewrite !dateTimeLe_spec.
  intros [Hab | [Hab Htab]] [Hbc | [Hbc Htbc]]; [left; lia..|].
  right. split; [lia|].
  destruct Htab as [Htab | [Htab Hiab]], Htbc as [Htbc | [Htbc Hibc]].
  - left. by apply (string_compare_trans Lt _ (time (snd b))).
  - left. apply String.compare_eq_iff in Htbc. by rewrite <- Htbc.
  - left. apply String.compare_eq_iff in Htab. by rewrite Htab.
  - right. split.
    + by apply (string_compare_trans Eq _ (time (snd b))).
    + by apply (string_leb_trans _ (fst b)).
Qed.

Lemma dateTimeLe_ordered a b :
  dateTimeLe a b = true → dateTimeOrdered (snd a) (snd b).
Proof.
  rewrite dateTimeLe_spec. unfold dateTimeOrdered, String.leb.
  intros [? | [? [-> | [-> _]]]]; auto.
Qed.

Lemma elem_of_docsOf q (coll : gmap string ReservationDoc) id doc :
  (id, doc) ∈ docsOf q coll ↔ coll !! id = Some doc ∧ satisfies q doc = true.
Proof.
  unfold docsOf. rewrite list_elem_of_In, filter_In, <- list_elem_of_In.
  by rewrite elem_of_map_to_list.
Qed.

Lemma NoDup_docsOf q (coll : gmap string ReservationDoc) :
  NoDup (map fst (docsOf q coll)).
Proof.
  unfold docsOf.
  pose proof (NoDup_fst_map_to_list coll) as Hnodup.
  induction (map_to_list coll) as [|x l IH]; simpl; [constructor|].
  apply NoDup_cons in Hnodup as [Hx Hl].
  destruct (satisfies q (snd x)); simpl; [|by apply IH].
  apply NoDup_cons. split; [|by apply IH].
  intros Hin. apply Hx.
  apply list_elem_of_fmap in Hin as (y & -> & Hin).
  apply list_elem_of_fmap. exists y. split; [done|].
  apply list_elem_of_In, filter_In in Hin as [Hin _]. by apply list_elem_of_In.
Qed.

(** ** Local days *)

Lemma local_day_range (tz : Z) (d x : Date) :
  setHoursMidnight tz d ≤ x ∧ x ≤ setHoursEndOfDay tz d ↔ sameLocalDay tz x d.
Proof.
  unfold setHoursEndOfDay, setHoursMidnight, sameLocalDay, msPerDay.
  pose proof (Z.div_mod (d + tz) 86400000 ltac:(lia)) as Hd.
  pose proof (Z.mod_pos_bound (d + tz) 86400000 ltac:(lia)) as Hdb.
  pose proof (Z.div_mod (x + tz) 86400000 ltac:(lia)) as Hx.
  pose proof (Z.mod_pos_bound (x + tz) 86400000 ltac:(lia)) as Hxb.
  split; [intros [H1 H2] | intros Heq]; lia.
Qed.

Lemma local_today_range (tz : Z) (now x : Date) :
  setHoursMidnight tz now ≤ x ∧ x < setDateNextDay (setHoursMidnight tz now)
  ↔ sameLocalDay tz x now.
Proof.
  rewrite <- local_day_range.
  unfold setDateNextDay, setHoursEndOfDay, setHoursMidnight. lia.
Qed.

(** ** Today's reservations *)

(** X5: [getTodayReservations] returns, leaving the database as it was,
    exactly the stored reservations whose status is confirmed or seated and
    whose date is on the local day of [now], the server being at a fixed
    offset from UTC, each once, in ascending order of date and then of time
    label; a pending reservation of today is not listed. *)
Theorem getTodayReservations_spec (tz : Z) (now : Date) (db : Db) :
  ∃ today : list Reservation,
    getTodayReservations tz now db = (inr today, db)
    ∧ (∀ id doc,
         (id, doc) ∈ today
         ↔ reservations db !! id = Some doc
           ∧ (status doc = confirmed ∨ status doc = seated)
           ∧ sameLocalDay tz (date doc) now)
    ∧ NoDup (map fst today)
    ∧ (∀ i j a b,
         (i < j)%nat → today !! i = Some a → today !! j = Some b →
         dateTimeOrdered (snd a) (snd b)).
Proof.
  unfold getTodayReservations, bind, queryGet, ret. simpl.
  rewrite reservation_pairs. unfold orderByDateTime.
  eexists. split; [reflexivity|]. split; [|split].
  - intros id doc. rewrite (sortBy_perm dateTimeLe), elem_of_docsOf.
    unfold satisfies, forallb, whereDateGe, whereDateLt, whereStatusIn.
    rewrite !andb_true_iff, !bool_decide_eq_true, !elem_of_cons, elem_of_nil.
    rewrite <- (local_today_range tz now (date doc)).
    split.
    + intros (Hin & Hge & Hlt & [? | [? | []]] & _); (split; [done|]);
        (split; [auto | lia]).
    + intros (Hin & Hstatus & Hge & Hlt). split; [done|].
      split; [done|]. split; [done|]. split; [tauto | done].
  - rewrite (sortBy_perm dateTimeLe). apply NoDup_docsOf.
  - intros i j a b Hij Hi Hj. apply dateTimeLe_ordered.
    exact (sortBy_ordered dateTimeLe dateTimeLe_total dateTimeLe_trans
             _ i j a b Hij Hi Hj).
Qed.

(** ** Pages of the reservation list *)

Lemma pageOf_run tz filters db :
  pageOf tz filters db
  = take (orDefault (filters ≫= f_limit) 50)
      (drop (orDefault (filters ≫= f_offset) 0)
         (sortBy dateDescLe (docsOf (listClauses tz filters) (reservations db)))).
Proof.
  unfold pageOf, listReservations, bind, queryGet, ret. simpl.
  by rewrite reservation_pairs.
Qed.

Lemma dateDescLe_spec a b :
  dateDescLe a b = true
  ↔ date (snd b) < date (snd a)
    ∨ (date (snd a) = date (snd b) ∧ String.leb (fst b) (fst a) = true).
Proof.
  unfold dateDescLe.
  destruct (decide (date (snd b) < date (snd a))) as [Hlt|Hlt].
  { rewrite bool_decide_eq_true_2 by done. split; [by left | done]. }
  rewrite bool_decide_eq_false_2 by done.
  destruct (decide (date (snd a) < date (snd b))) as [Hgt|Hgt].
  { rewrite bool_decide_eq_true_2 by done.
    split; [done | intros [? | [? _]]; lia]. }
  rewrite bool_decide_eq_false_2 by done.
  split; [intros Hid; right; split; [lia | done] | intros [? | [_ ?]]; [lia | done]].
Qed.

Lemma dateDescLe_total a b : dateDescLe a b = true ∨ dateDescLe b a = true.
Proof.
  rewrite !dateDescLe_spec.
  destruct (Z.lt_trichotomy (date (snd a)) (date (snd b))) as [?|[Heq|?]];
    [auto | | auto].
  destruct (String.leb_total (fst a) (fst b)); [right | left]; right; by split.
Qed.

Lemma dateDescLe_trans a b c :
  dateDescLe a b = true → dateDescLe b c = true → dateDescLe a c = true.
Proof.
  rewrite !dateDescLe_spec.
  intros [Hab | [Hab Hiab]] [Hbc | [Hbc Hibc]]; [left; lia..|].
  right. split; [lia|]. by apply (string_leb_trans _ (fst b)).
Qed.

Lemma satisfies_app q1 q2 doc :
  satisfies (q1 ++ q2) doc = satisfies q1 doc && satisfies q2 doc.
Proof. apply forallb_app. Qed.

Lemma satisfies_listClauses tz filters doc :
  satisfies (listClauses tz filters) doc = true →
  (∀ s, filters ≫= f_status = Some s → status doc = s)
  ∧ (∀ d, filters ≫= f_date = Some d → sameLocalDay tz (date doc) d)
  ∧ (∀ e, filters ≫= f_email = Some e → e ≠ "" → email doc = e)
  ∧ (∀ n, filters ≫= f_seatingType = Some n → n ≠ "" →
          seatingName (seatingType doc) = n).
Proof.
  unfold listClauses. rewrite !satisfies_app, !andb_true_iff.
  intros (Hstatus & Hdate & Hemail & Hseating).
  split; [|split; [|split]].
  - intros s Hs. rewrite Hs in Hstatus. simpl in Hstatus.
    rewrite andb_true_r in Hstatus. by apply bool_decide_eq_true in Hstatus.
  - intros d Hd. rewrite Hd in Hdate. simpl in Hdate.
    rewrite andb_true_r in Hdate. apply andb_true_iff in Hdate as [Hge Hle].
    apply bool_decide_eq_true in Hge, Hle. by apply local_day_range.
  - intros e He Hne. rewrite He in Hemail. simpl in Hemail.
    rewrite bool_decide_eq_false_2 in Hemail by done. simpl in Hemail.
    rewrite andb_true_r in Hemail. by apply bool_decide_eq_true in Hemail.
  - intros n Hn Hne. rewrite Hn in Hseating. simpl in Hseating.
    rewrite bool_decide_eq_false_2 in Hseating by done. simpl in Hseating.
    rewrite andb_true_r in Hseating. by apply bool_decide_eq_true in Hseating.
Qed.

(** X6: every reservation on a page that [listReservations] returns is
    stored under its id and passes each filter given: its status is the one
    asked for, its date is on the local day of the date asked for, the server
    being at a fixed offset from UTC, its email and the name of its seating
    type are the non-empty strings asked for; no reservation is on the page
    twice, and the page is in descending order of date. *)
Theorem listReservations_page_sound
    (tz : Z) (filters : option ListFilters) (db : Db) :
  (∀ id doc,
     (id, doc) ∈ pageOf tz filters db →
     reservations db !! id = Some doc
     ∧ (∀ s, filters ≫= f_status = Some s → status doc = s)
     ∧ (∀ d, filters ≫= f_date = Some d → sameLocalDay tz (date doc) d)
     ∧ (∀ e, filters ≫= f_email = Some e → e ≠ "" → email doc = e)
     ∧ (∀ n, filters ≫= f_seatingType = Some n → n ≠ "" →
             seatingName (seatingType doc) = n))
  ∧ NoDup (map fst (pageOf tz filters db))
  ∧ (∀ i j a b,
       (i < j)%nat →
       pageOf tz filters db !! i = Some a → pageOf tz filters db !! j = Some b →
       date (snd b) ≤ date (snd a)).
Proof.
  rewrite pageOf_run.
  set (matching := docsOf (listClauses tz filters) (reservations db)).
  set (limit := orDefault (filters ≫= f_limit) 50).
  set (offset := orDefault (filters ≫= f_offset) 0).
  assert (Hsub : take limit (drop offset (sortBy dateDescLe matching))
                 `sublist_of` sortBy dateDescLe matching).
  { etrans; [apply sublist_take | apply sublist_drop]. }
  split; [|split].
  - intros id doc Hin.
    assert (Hmatch : (id, doc) ∈ matching).
    { rewrite <- (sortBy_perm dateDescLe matching).
      eapply sublist_subseteq; [exact Hsub | exact Hin]. }
    apply elem_of_docsOf in Hmatch as [Hstored Hsat].
    split; [done|]. by apply satisfies_listClauses.
  - apply (sublist_NoDup _ (map fst (sortBy dateDescLe matching))).
    + rewrite (sortBy_perm dateDescLe). apply NoDup_docsOf.
    + apply (fmap_sublist fst), Hsub.
  - intros i j a b Hij Hi Hj.
    apply lookup_take_Some in Hi as [Hi _], Hj as [Hj _].
    rewrite lookup_drop in Hi, Hj.
    pose proof (sortBy_ordered dateDescLe dateDescLe_total dateDescLe_trans
                  matching (offset + i) (offset + j) a b ltac:(lia) Hi Hj) as Hle.
    apply dateDescLe_spec in Hle. lia.
Qed.

Lemma listClauses_withPaging tz filters limit offset :
  listClauses tz (withPaging filters limit offset) = listClauses tz filters.
Proof. by destruct filters. Qed.

Lemma pageOf_withPaging tz filters limit offset db :
  pageOf tz (withPaging filters limit offset) db
  = take (orDefault (Some limit) 50)
      (drop offset
         (sortBy dateDescLe (docsOf (listClauses tz filters) (reservations db)))).
Proof.
  rewrite pageOf_run, listClauses_withPaging. by destruct offset.
Qed.

(** X7: consecutive pages of [listReservations] fit together: for positive
    limits the page of [l] reservations at offset [o] followed by the page of
    [l'] at offset [o + l] is the page of [l + l'] at offset [o]; a page
    whose offset is at least the number of matching reservations is empty;
    and a limit of 0 is taken as the default of 50. *)
Theorem listReservations_pages_fit
    (tz : Z) (filters : option ListFilters) (db : Db) (l l' o : nat) :
  (0 < l)%nat → (0 < l')%nat →
  pageOf tz (withPaging filters l o) db
    ++ pageOf tz (withPaging filters l' (o + l)) db
  = pageOf tz (withPaging filters (l + l') o) db
  ∧ ((length (docsOf (listClauses tz filters) (reservations db)) ≤ o)%nat →
     pageOf tz (withPaging filters l o) db = [])
  ∧ pageOf tz (withPaging filters 0 o) db = pageOf tz (withPaging filters 50 o) db.
Proof.
  intros Hl Hl'. rewrite !pageOf_withPaging.
  set (sorted := sortBy dateDescLe (docsOf (listClauses tz filters) (reservations db))).
  assert (Hlimit : ∀ n, (0 < n)%nat → orDefault (Some n) 50 = n)
    by (intros [|n]; [lia | done]).
  rewrite !Hlimit by lia.
  split; [|split].
  - rewrite <- (drop_drop sorted l o). apply take_take_drop.
  - intros Hpast. rewrite drop_ge; [by rewrite take_nil|].
    unfold sorted. by rewrite (sortBy_perm dateDescLe).
  - done.
Qed.

(** ** Reading back what was created *)

Lemma getReservation_run id db :
  getReservation id db
  = match reservations db !! id with
    | None => (inl (NotFoundError "Reservation not found"), db)
    | Some doc => (inr (id, doc), db)
    end.
Proof.
  unfold getReservation, bind, getDoc. by destruct (reservations db !! id).
Qed.

Lemma create_success_inv now input db r db' :
  createReservation now input db = (inr r, db') →
  r = (fresh (dom (reservations db)), reservationDataOf now input)
  ∧ db' = mkDb (<[fresh (dom (reservations db)) := reservationDataOf now input]>
                  (reservations db))
               (<[slotLockId (in_date input) (in_time input) (in_seatingType input)
                  := mkSlotLockDoc (Some (fresh (dom (reservations db)))) (Some now)]>
                  (slotLocks db))
               (blockedDates db) (settings db)
  ∧ in_partySize input ≤ seatsLeft db (inputKey input)
  ∧ bookable db now (in_date input).
Proof.
  rewrite createReservation_run.
  destruct (bool_decide_reflect (bookable db now (in_date input)));
    [|done].
  destruct (bool_decide_reflect
              (seatsLeft db (inputKey input) < in_partySize input)); [done|].
  simpl. intros [= <- <-]. split; [done|]. split; [done|]. split; [lia | done].
Qed.

(** X8: after [createReservation] has returned a reservation,
    [getReservation] with the returned id gives back that same reservation,
    and every reservation stored before is still returned unchanged under its
    id. *)
Theorem create_then_get
    (now : Date) (input : CreateReservationInput) (db db' : Db)
    (id : string) (doc : ReservationDoc) :
  createReservation now input db = (inr (id, doc), db') →
  getReservation id db' = (inr (id, doc), db')
  ∧ (∀ id' doc', reservations db !! id' = Some doc' →
       getReservation id' db' = (inr (id', doc'), db')).
Proof.
  intros Hrun. apply create_success_inv in Hrun as ([= -> ->] & -> & _).
  rewrite !getReservation_run. simpl. split.
  - by rewrite lookup_insert_eq.
  - intros id' doc' Hstored. rewrite getReservation_run. simpl.
    rewrite lookup_insert_ne, Hstored; [done|].
    intros <-. by rewrite fresh_reservation_id in Hstored.
Qed.

(** ** Failures change nothing *)

Lemma cancelReservation_missing table now id reasonGiven db :
  reservations db !! id = None →
  cancelReservation table now id reasonGiven db
  = (inl (NotFoundError "Reservation not found"), db).
Proof.
  intros Hnone. unfold cancelReservation, bind at 1.
  by rewrite getReservation_run, Hnone.
Qed.

(** X9: a call of [createReservation], [updateReservationStatus],
    [cancelReservation] or [deleteReservation] that throws leaves the
    database exactly as it was. *)
Theorem failed_call_changes_nothing
    (table : ReservationStatus → option (list ReservationStatus))
    (now : Date) (db : Db) (e : Error) :
  (∀ input, fst (createReservation now input db) = inl e →
            snd (createReservation now input db) = db)
  ∧ (∀ id newStatus reasonGiven,
       fst (updateReservationStatus table now id newStatus reasonGiven db) = inl e →
       snd (updateReservationStatus table now id newStatus reasonGiven db) = db)
  ∧ (∀ id reasonGiven,
       fst (cancelReservation table now id reasonGiven db) = inl e →
       snd (cancelReservation table now id reasonGiven db) = db)
  ∧ (∀ id, fst (deleteReservation id db) = inl e →
           snd (deleteReservation id db) = db).
Proof.
  assert (Hupdate : ∀ id newStatus reasonGiven,
            fst (updateReservationStatus table now id newStatus reasonGiven db)
            = inl e →
            snd (updateReservationStatus table now id newStatus reasonGiven db)
            = db).
  { intros id newStatus reasonGiven. rewrite updateReservationStatus_run.
    destruct (reservations db !! id); [|done].
    by destruct (bool_decide _). }
  split; [|split; [done|split]].
  - intros input. rewrite createReservation_run.
    by repeat (destruct (bool_decide _); simpl).
  - intros id reasonGiven.
    destruct (reservations db !! id) as [doc|] eqn:Hstored.
    + rewrite (cancelReservation_run _ _ _ _ _ _ Hstored).
      destruct (bool_decide _); [done|]. destruct (_ || _); [done|].
      destruct (Qlt_le_dec _ _); [done|]. apply Hupdate.
    + by rewrite cancelReservation_missing.
  - intros id. rewrite deleteReservation_run.
    by destruct (reservations db !! id).
Qed.

(** ** Seats and the life of a reservation *)

Lemma occupancy_replace (coll : gmap string ReservationDoc) id doc doc' k :
  coll !! id = Some doc →
  occupancy (<[id := doc']> coll) k
  = occupancy coll k - contribution doc k + contribution doc' k.
Proof.
  intros Hstored. rewrite (occupancy_stored _ _ _ k Hstored).
  rewrite <- insert_delete_eq.
  rewrite occupancy_insert by apply lookup_delete_eq.
  unfold contribution. lia.
Qed.

Lemma occupancy_delete (coll : gmap string ReservationDoc) id doc k :
  coll !! id = Some doc →
  occupancy (delete id coll) k = occupancy coll k - contribution doc k.
Proof.
  intros Hstored. rewrite (occupancy_stored _ _ _ k Hstored).
  unfold contribution. lia.
Qed.

Lemma update_success_inv table now id newStatus reasonGiven db r db' :
  updateReservationStatus table now id newStatus reasonGiven db = (inr r, db') →
  ∃ doc,
    reservations db !! id = Some doc
    ∧ newStatus ∈ default [] (table (status doc))
    ∧ r = (id, withStatus now newStatus reasonGiven doc)
    ∧ db' = withReservation id (withStatus now newStatus reasonGiven doc) db.
Proof.
  rewrite updateReservationStatus_run.
  destruct (reservations db !! id) as [doc|]; [|done].
  destruct (bool_decide_reflect (newStatus ∈ default [] (table (status doc))));
    [|done].
  intros [= <- <-]. by exists doc.
Qed.

(** X10: a status change made by [updateReservationStatus] moves seats only
    through the status of that one reservation: in its own slot the occupancy
    changes by its party size counted with the new status less its party size
    counted with the old one, so it is unchanged between occupying statuses
    and drops by the party size on leaving them, and in every other slot it
    is unchanged. *)
Theorem status_change_moves_seats
    (table : ReservationStatus → option (list ReservationStatus))
    (now : Date) (id : string) (newStatus : ReservationStatus)
    (reasonGiven : option string) (db db' : Db) (doc : ReservationDoc)
    (r : Reservation) :
  reservations db !! id = Some doc →
  updateReservationStatus table now id newStatus reasonGiven db = (inr r, db') →
  ∀ k : SlotKey,
    occupancy (reservations db') k
    = occupancy (reservations db) k
      + (if bool_decide (slotKeyOf doc = k)
         then (if occupying newStatus then partySizeValue (partySize doc) else 0)
              - (if occupying (status doc) then partySizeValue (partySize doc) else 0)
         else 0).
Proof.
  intros Hstored Hrun k.
  apply update_success_inv in Hrun as (doc0 & Hstored0 & _ & _ & ->).
  rewrite Hstored in Hstored0. injection Hstored0 as <-. simpl.
  rewrite (occupancy_replace _ _ _ _ _ Hstored). unfold contribution. simpl.
  change (slotKeyOf (withStatus now newStatus reasonGiven doc)) with (slotKeyOf doc).
  destruct (bool_decide (slotKeyOf doc = k)), (occupying newStatus),
    (occupying (status doc)); simpl; lia.
Qed.

Lemma withinCapacity_shrink db db' :
  settings db' = settings db →
  (∀ k, occupancy (reservations db') k ≤ occupancy (reservations db) k) →
  withinCapacity db → withinCapacity db'.
Proof.
  intros Hset Hocc Hinv k. rewrite Hset.
  specialize (Hocc k). specialize (Hinv k). lia.
Qed.

Lemma update_keeps_capacity table now id newStatus reasonGiven db :
  terminalRowsEmpty table → sizesNonNegative db → withinCapacity db →
  withinCapacity (snd (updateReservationStatus table now id newStatus reasonGiven db)).
Proof.
  intros Hrows Hsizes Hinv. rewrite updateReservationStatus_run.
  destruct (reservations db !! id) as [doc|] eqn:Hstored; [|done].
  destruct (bool_decide_reflect (newStatus ∈ default [] (table (status doc))))
    as [Hallowed|]; [|done].
  simpl. apply (withinCapacity_shrink db); [done | | done].
  intros k. simpl. rewrite (occupancy_replace _ _ _ _ _ Hstored).
  unfold contribution. simpl.
  change (slotKeyOf (withStatus now newStatus reasonGiven doc)) with (slotKeyOf doc).
  pose proof (Hsizes _ _ Hstored) as Hsize.
  destruct (occupying (status doc)) eqn:Hocc.
  - destruct (bool_decide _), (occupying newStatus); simpl; lia.
  - assert (Hterm : terminal (status doc) = true)
      by (destruct (status doc); done).
    rewrite (Hrows _ Hterm) in Hallowed. by apply elem_of_nil in Hallowed.
Qed.

(** X11: the lifecycle operations keep every slot within capacity: on a
    database within capacity whose stored party sizes are not negative, and
    with a transition table whose terminal rows are empty, the database after
    [updateReservationStatus], after [cancelReservation] and after
    [deleteReservation] is within capacity, whether the call succeeded or
    failed. *)
Theorem lifecycle_keeps_capacity
    (table : ReservationStatus → option (list ReservationStatus))
    (now : Date) (db : Db) :
  terminalRowsEmpty table → sizesNonNegative db → withinCapacity db →
  (∀ id newStatus reasonGiven,
     withinCapacity
       (snd (updateReservationStatus table now id newStatus reasonGiven db)))
  ∧ (∀ id reasonGiven,
       withinCapacity (snd (cancelReservation table now id reasonGiven db)))
  ∧ (∀ id, withinCapacity (snd (deleteReservation id db))).
Proof.
  intros Hrows Hsizes Hinv. split; [|split].
  - intros id newStatus reasonGiven. by apply update_keeps_capacity.
  - intros id reasonGiven.
    destruct (reservations db !! id) as [doc|] eqn:Hstored.
    + rewrite (cancelReservation_run _ _ _ _ _ _ Hstored).
      destruct (bool_decide _); [done|]. destruct (_ || _); [done|].
      destruct (Qlt_le_dec _ _); [done|]. by apply update_keeps_capacity.
    + by rewrite cancelReservation_missing.
  - intros id. rewrite deleteReservation_run.
    destruct (reservations db !! id) as [doc|] eqn:Hstored; [|done].
    simpl. apply (withinCapacity_shrink db); [done | | done].
    intros k. simpl. rewrite (occupancy_delete _ _ _ _ Hstored).
    unfold contribution. pose proof (Hsizes _ _ Hstored).
    destruct (_ && _); lia.
Qed.

(** ** Deleting a reservation *)

(** X12: [deleteReservation] fails as not-found, changing nothing, when no
    reservation has the id; otherwise it removes that reservation and no
    other: afterwards [getReservation] and a second [deleteReservation] of the
    id fail as not-found, every other id reads as before, there is one
    reservation fewer, each slot loses exactly the seats the reservation took
    there, and the slot locks are left as they were. *)
Theorem deleteReservation_spec (id : string) (db : Db) :
  (reservations db !! id = None →
     deleteReservation id db = (inl (NotFoundError "Reservation not found"), db))
  ∧ (∀ doc, reservations db !! id = Some doc →
       ∃ db',
         deleteReservation id db = (inr tt, db')
         ∧ getReservation id db'
           = (inl (NotFoundError "Reservation not found"), db')
         ∧ deleteReservation id db'
           = (inl (NotFoundError "Reservation not found"), db')
         ∧ (∀ id', id' ≠ id → reservations db' !! id' = reservations db !! id')
         ∧ S (size (reservations db')) = size (reservations db)
         ∧ (∀ k, occupancy (reservations db') k
                 = occupancy (reservations db) k
                   - (if bool_decide (slotKeyOf doc = k) && occupying (status doc)
                      then partySizeValue (partySize doc) else 0))
         ∧ slotLocks db' = slotLocks db
         ∧ settings db' = settings db).
Proof.
  rewrite deleteReservation_run. split; [by intros ->|].
  intros doc Hstored. rewrite Hstored. eexists. split; [reflexivity|].
  rewrite getReservation_run, deleteReservation_run. simpl.
  rewrite lookup_delete_eq. repeat split.
  - intros id' Hne. by rewrite lookup_delete_ne.
  - rewrite (map_size_delete_Some id (reservations db)); [|by eexists].
    assert (size (reservations db) ≠ 0%nat)
      by (apply (map_size_ne_0_lookup_2 _ id); by eexists).
    lia.
  - intros k. by rewrite (occupancy_delete _ _ _ _ Hstored).
Qed.

(** ** When a cancellation goes through *)

Lemma window_left_iff (window : Z) (now d : Date) :
  (inject_Z window <= getHoursBetween now d)%Q ↔ window * msPerHour ≤ d - now.
Proof.
  unfold Qle, getHoursBetween, inject_Z, msPerHour. simpl. lia.
Qed.

(** X13: [cancelReservation] succeeds exactly when the reservation is stored
    with a status other than cancelled, completed and no-show, the time to
    its date is at least the cancellation window, and the transition table
    allows its status to become cancelled; the reservation it then returns
    has the given id, status cancelled and the time of the call as
    cancellation time, and is what is stored under the id. *)
Theorem cancelReservation_succeeds_iff
    (table : ReservationStatus → option (list ReservationStatus))
    (now : Date) (id : string) (reasonGiven : option string) (db : Db) :
  (succeeds (cancelReservation table now id reasonGiven db)
   ↔ ∃ doc,
       reservations db !! id = Some doc
       ∧ terminal (status doc) = false
       ∧ cancellationWindowHours (settings db) * msPerHour ≤ date doc - now
       ∧ cancelled ∈ default [] (table (status doc)))
  ∧ (∀ r db',
       cancelReservation table now id reasonGiven db = (inr r, db') →
       fst r = id
       ∧ status (snd r) = cancelled
       ∧ cancelledAt (snd r) = Some now
       ∧ reservations db' !! id = Some (snd r)).
Proof.
  unfold succeeds.
  destruct (reservations db !! id) as [doc|] eqn:Hstored.
  2:{ rewrite cancelReservation_missing by done. split.
      - split; [by intros [? ?] | by intros (? & ? & _)].
      - done. }
  rewrite (cancelReservation_run _ _ _ _ _ _ Hstored).
  destruct (terminal (status doc)) eqn:Hterm.
  { assert (Hguard : bool_decide (status doc = cancelled) = true
                     ∨ (bool_decide (status doc = cancelled) = false
                        ∧ bool_decide (status doc = completed)
                          || bool_decide (status doc = no_show) = true))
      by (destruct (status doc); try done; auto).
    destruct Hguard as [-> | [-> ->]]; (split; [|done]);
      (split; [by intros [? ?] | intros (? & [= <-] & ? & _); congruence]). }
  assert (Hc : bool_decide (status doc = cancelled) = false)
    by (destruct (status doc); done).
  assert (Hd : bool_decide (status doc = completed)
               || bool_decide (status doc = no_show) = false)
    by (destruct (status doc); done).
  rewrite Hc, Hd.
  destruct (Qlt_le_dec _ _) as [Hlate|Hearly].
  { split; [|done]. split; [by intros [? ?]|].
    intros (? & [= <-] & _ & Hleft & _).
    apply window_left_iff in Hleft. by apply Qlt_not_le in Hlate. }
  rewrite updateReservationStatus_run, Hstored.
  destruct (bool_decide_reflect (cancelled ∈ default [] (table (status doc))))
    as [Hallowed|Hnot]; simpl.
  - split.
    + split; [|by eexists]. intros _. exists doc.
      by rewrite <- window_left_iff.
    + intros r db' [= <- <-]. simpl. by rewrite lookup_insert_eq.
  - split; [|done]. split; [by intros [? ?]|].
    intros (? & [= <-] & _ & _ & ?). done.
Qed.

Lemma update_keeps_terminal table now id' newStatus reasonGiven db id doc :
  terminalRowsEmpty table →
  reservations db !! id = Some doc → terminal (status doc) = true →
  reservations (snd (updateReservationStatus table now id' newStatus reasonGiven db))
    !! id = Some doc.
Proof.
  intros Hrows Hstored Hterm. rewrite updateReservationStatus_run.
  destruct (reservations db !! id') as [doc'|] eqn:Hstored'; [|done].
  destruct (bool_decide_reflect (newStatus ∈ default [] (table (status doc'))))
    as [Hallowed|_]; [|done].
  simpl. destruct (decide (id' = id)) as [->|Hne].
  - rewrite Hstored in Hstored'. injection Hstored' as <-.
    rewrite (Hrows _ Hterm) in Hallowed. by apply not_elem_of_nil in Hallowed.
  - by rewrite lookup_insert_ne.
Qed.

Lemma fresh_id_differs (coll : gmap string ReservationDoc) id doc :
  coll !! id = Some doc → fresh (dom coll) ≠ id.
Proof.
  intros Hstored Heq.
  pose proof (fresh_reservation_id coll) as Hfresh.
  rewrite Heq in Hfresh. congruence.
Qed.

(** A reservation in a terminal status is left as it is by every call that
    creates a reservation or changes a status. *)
Lemma runCall_keeps_terminal table db c id doc :
  terminalRowsEmpty table →
  reservations db !! id = Some doc → terminal (status doc) = true →
  reservations (runCall table db c) !! id = Some doc.
Proof.
  intros Hrows Hstored Hterm.
  destruct c as [now input | now d t s seats data | now id' newStatus reasonGiven
                | now id' reasonGiven]; simpl.
  - rewrite createReservation_run.
    destruct (bool_decide _); [|done].
    destruct (bool_decide _); [done|]. simpl.
    rewrite lookup_insert_ne; [done|]. by eapply fresh_id_differs.
  - rewrite checkAndReserveSlot_run. cbv zeta.
    destruct (bool_decide _); [done|]. simpl.
    rewrite lookup_insert_ne; [done|]. by eapply fresh_id_differs.
  - by apply update_keeps_terminal.
  - destruct (reservations db !! id') as [doc'|] eqn:Hstored'.
    + rewrite (cancelReservation_run _ _ _ _ _ _ Hstored').
      destruct (bool_decide _); [done|]. destruct (_ || _); [done|].
      destruct (Qlt_le_dec _ _); [done|]. by apply update_keeps_terminal.
    + by rewrite cancelReservation_missing.
Qed.

(** X14: a reservation that [cancelReservation] has cancelled stays
    cancelled. Under a table whose terminal rows are empty, whatever calls of
    [createReservation], [checkAndReserveSlot], [updateReservationStatus] and
    [cancelReservation] follow, the stored reservation remains the one the
    cancellation returned, and every later [cancelReservation] for its id
    fails validation as already cancelled and changes nothing. Only
    [deleteReservation], which removes the document, ends this. *)
Theorem cancelled_stays_cancelled
    (table : ReservationStatus → option (list ReservationStatus))
    (now : Date) (id : string) (reasonGiven : option string)
    (db db' : Db) (r : Reservation) (calls : list Call) :
  terminalRowsEmpty table →
  cancelReservation table now id reasonGiven db = (inr r, db') →
  let later := fold_left (runCall table) calls db' in
  status (snd r) = cancelled
  ∧ reservations later !! id = Some (snd r)
  ∧ ∀ now' reasonGiven',
      cancelReservation table now' id reasonGiven' later
      = (inl (ValidationError "Reservation is already cancelled"), later).
Proof.
  intros Hrows Hrun later.
  destruct (reservations db !! id) as [doc|] eqn:Hstored;
    [|by rewrite cancelReservation_missing in Hrun].
  rewrite (cancelReservation_run _ _ _ _ _ _ Hstored) in Hrun.
  destruct (bool_decide _); [done|]. destruct (_ || _); [done|].
  destruct (Qlt_le_dec _ _); [done|].
  apply update_success_inv in Hrun as (doc0 & _ & _ & -> & ->).
  simpl.
  assert (Hkept : reservations later !! id
                  = Some (withStatus now cancelled reasonGiven doc0)).
  { unfold later. clear later.
    assert (Hstart : reservations
                       (withReservation id
                          (withStatus now cancelled reasonGiven doc0) db) !! id
                     = Some (withStatus now cancelled reasonGiven doc0))
      by apply lookup_insert_eq.
    revert Hstart.
    generalize (withReservation id (withStatus now cancelled reasonGiven doc0) db).
    induction calls as [|c calls IH]; intros db1 Hstart; simpl; [done|].
    apply IH. by apply runCall_keeps_terminal. }
  split; [done|]. split; [exact Hkept|].
  intros now' reasonGiven'.
  by rewrite (cancelReservation_run _ _ _ _ _ _ Hkept).
Qed.

(** ** Creation seen through availability *)

(** X15: after [createReservation] has returned a reservation for a party
    that is not negative, [calculateSlotAvailability] reports for the slot of
    the reservation a booked count higher and a remaining capacity lower by
    exactly the party size, and for every other slot what it reported
    before. *)
Theorem create_reduces_availability
    (now : Date) (input : CreateReservationInput) (db db' : Db)
    (r : Reservation) :
  createReservation now input db = (inr r, db') →
  0 ≤ in_partySize input →
  ∀ (d : Date) (t : string) (s : SeatingType),
    ∃ before after,
      calculateSlotAvailability d t s db = (inr before, db)
      ∧ calculateSlotAvailability d t s db' = (inr after, db')
      ∧ totalCapacity after = totalCapacity before
      ∧ bookedCount after
        = bookedCount before
          + (if bool_decide (slotKey d t s = inputKey input)
             then in_partySize input else 0)
      ∧ remainingCapacity after
        = remainingCapacity before
          - (if bool_decide (slotKey d t s = inputKey input)
             then in_partySize input else 0).
Proof.
  intros Hrun Hsize d t s.
  apply create_success_inv in Hrun as (_ & -> & Hroom & _).
  rewrite !calculateSlotAvailability_run. eexists _, _.
  split; [reflexivity|]. split; [reflexivity|]. simpl.
  unfold seatsLeft in *. simpl in *.
  rewrite occupancy_insert by apply fresh_reservation_id.
  rewrite slotKeyOf_reservationData. simpl. rewrite andb_true_r.
  split; [done|].
  destruct (bool_decide_reflect (inputKey input = slotKey d t s)) as [Hkey|Hkey].
  - rewrite bool_decide_eq_true_2 by done. rewrite Hkey in Hroom. simpl in Hroom.
    assert (Hs : in_seatingType input = s)
      by (unfold inputKey, slotKey in Hkey; congruence).
    rewrite Hs in Hroom. split; lia.
  - rewrite bool_decide_eq_false_2 by done. split; lia.
Qed.

(** ** Undoing a creation *)

(** X16: a creation can be undone: deleting the reservation that
    [createReservation] returned leaves the reservations exactly as they were
    before the creation, while the slot lock written by the creation stays;
    and changing its status to cancelled, where the table allows that from
    confirmed, returns every slot to the occupancy it had before. *)
Theorem create_then_undo
    (now : Date) (input : CreateReservationInput) (db db' : Db)
    (id : string) (doc : ReservationDoc) :
  createReservation now input db = (inr (id, doc), db') →
  (∃ db'',
     deleteReservation id db' = (inr tt, db'')
     ∧ reservations db'' = reservations db
     ∧ slotLocks db'' = slotLocks db')
  ∧ (∀ table now' reasonGiven,
       cancelled ∈ default [] (table confirmed) →
       ∃ r db'',
         updateReservationStatus table now' id cancelled reasonGiven db'
         = (inr r, db'')
         ∧ ∀ k, occupancy (reservations db'') k = occupancy (reservations db) k).
Proof.
  intros Hrun. apply create_success_inv in Hrun as ([= -> ->] & -> & _).
  pose proof (fresh_reservation_id (reservations db)) as Hfresh.
  split.
  - rewrite deleteReservation_run. simpl. rewrite lookup_insert_eq.
    eexists. split; [reflexivity|]. simpl.
    split; [by apply delete_insert_id | done].
  - intros table now' reasonGiven Hallowed.
    rewrite updateReservationStatus_run. simpl. rewrite lookup_insert_eq. simpl.
    rewrite bool_decide_eq_true_2 by done.
    eexists _, _. split; [reflexivity|]. intros k. simpl.
    rewrite insert_insert_eq, !occupancy_insert by done. simpl.
    rewrite andb_false_r. lia.
Qed.

(** ** The further properties on the worked configuration *)

Lemma exBooked_reservations : reservations exBookedDb = {[ "0" := exDoc ]}.
Proof. vm_compute. reflexivity. Qed.

Lemma exBooked_sizes : sizesNonNegative exBookedDb.
Proof.
  intros id doc. rewrite exBooked_reservations.
  intros [_ <-]%lookup_singleton_Some. done.
Qed.

Lemma exBooked_within : withinCapacity exBookedDb.
Proof.
  apply commit_preserves_capacity; [apply create_payloadAgrees | apply exDb_within].
Qed.

Lemma exBooked_run :
  createReservation exNow (exInput 6 "19:00") exDb = (inr ("0", exDoc), exBookedDb).
Proof. vm_compute. reflexivity. Qed.

Lemma exCancel_run :
  cancelReservation exTransitions exNow "0" (Some "rain") exBookedDb
  = (inr ("0", withStatus exNow cancelled (Some "rain") exDoc), exCancelledDb).
Proof. vm_compute. reflexivity. Qed.

Lemma exUpdate_run :
  updateReservationStatus exTransitions exNow "0" cancelled (Some "rain") exBookedDb
  = (inr ("0", withStatus exNow cancelled (Some "rain") exDoc), exCancelledDb).
Proof. vm_compute. reflexivity. Qed.

Lemma canAccommodate_iff_reserve_succeeds_witness :
  0 < 4
  ∧ ∃ r c,
      checkSlotAvailability exDay "19:00" balcony 4 exBookedDb
      = (inr (r, c), exBookedDb)
      ∧ (c = true
         ↔ succeeds (checkAndReserveSlot exNow exDay "19:00" balcony 4
                       exDoc exBookedDb)).
Proof.
  split; [lia|].
  destruct (canAccommodate_iff_reserve_succeeds exNow exDay "19:00" balcony 4
              exDoc exBookedDb) as (r & c & Hcheck & _ & Hiff & _); [lia|].
  by exists r, c.
Defined.

Lemma getAvailableTimeSlotsForParty_spec_witness :
  blockedDates exBookedDb !! formatDateKey exDay = None
  ∧ ∃ indoorSlots balconySlots,
      getAvailableTimeSlotsForParty exDay 5 (Some balcony) exBookedDb
      = (inr (indoorSlots, balconySlots), exBookedDb)
      ∧ "19:00" ∈ indoorSlots
      ∧ "19:00" ∉ balconySlots.
Proof.
  assert (Hopen : blockedDates exBookedDb !! formatDateKey exDay = None)
    by (vm_compute; reflexivity).
  split; [exact Hopen|].
  destruct (getAvailableTimeSlotsForParty_spec exDay 5 (Some balcony)
              exBookedDb Hopen) as (ins & bals & Hrun & Hins & Hbals & _).
  exists ins, bals. split; [exact Hrun|]. split.
  - apply Hins. split; [|vm_compute; discriminate].
    replace (timeSlots (settings exBookedDb)) with ["18:00"; "19:00"; "20:00"]
      by (vm_compute; reflexivity).
    rewrite !elem_of_cons. auto.
  - intros [_ Hge]%Hbals. vm_compute in Hge. by apply Hge.
Defined.

Lemma offered_slot_has_availability_witness :
  0 < 5
  ∧ fst (getAvailableTimeSlotsForParty exDay 5 None exBookedDb)
    = inr (["18:00"; "19:00"; "20:00"], ["18:00"; "20:00"])
  ∧ fst (hasAvailability exDay exBookedDb) = inr true.
Proof.
  assert (Hrun : fst (getAvailableTimeSlotsForParty exDay 5 None exBookedDb)
                 = inr (["18:00"; "19:00"; "20:00"], ["18:00"; "20:00"]))
    by (vm_compute; reflexivity).
  split; [lia|]. split; [exact Hrun|].
  apply (offered_slot_has_availability exDay 5 None exBookedDb _ _
           ltac:(lia) Hrun).
  left. discriminate.
Defined.

Lemma listReservations_pages_fit_witness :
  (0 < 1)%nat
  ∧ pageOf 0 (withPaging None 1 0) exTwoDb ++ pageOf 0 (withPaging None 1 1) exTwoDb
    = pageOf 0 (withPaging None 2 0) exTwoDb
  ∧ length (pageOf 0 (withPaging None 2 0) exTwoDb) = 2%nat.
Proof.
  split; [lia|]. split.
  - apply (listReservations_pages_fit 0 None exTwoDb 1 1 0); lia.
  - vm_compute. reflexivity.
Defined.

Lemma create_then_get_witness :
  createReservation exNow (exInput 6 "19:00") exDb = (inr ("0", exDoc), exBookedDb)
  ∧ getReservation "0" exBookedDb = (inr ("0", exDoc), exBookedDb).
Proof.
  split; [exact exBooked_run|].
  exact (proj1 (create_then_get exNow (exInput 6 "19:00") exDb exBookedDb "0"
                  exDoc exBooked_run)).
Defined.

Lemma status_change_moves_seats_witness :
  reservations exBookedDb !! "0" = Some exDoc
  ∧ occupancy (reservations exCancelledDb) (slotKey exDay "19:00" balcony)
    = occupancy (reservations exBookedDb) (slotKey exDay "19:00" balcony) - 6.
Proof.
  split; [exact exBooked_id|].
  rewrite (status_change_moves_seats exTransitions exNow "0" cancelled
             (Some "rain") exBookedDb exCancelledDb exDoc _
             exBooked_id exUpdate_run).
  vm_compute. reflexivity.
Defined.

Lemma lifecycle_keeps_capacity_witness :
  terminalRowsEmpty exTransitions ∧ sizesNonNegative exBookedDb
  ∧ withinCapacity exBookedDb
  ∧ withinCapacity
      (snd (cancelReservation exTransitions exNow "0" None exBookedDb))
  ∧ withinCapacity (snd (deleteReservation "0" exBookedDb)).
Proof.
  split; [exact exTransitions_terminal|]. split; [exact exBooked_sizes|].
  split; [exact exBooked_within|].
  destruct (lifecycle_keeps_capacity exTransitions exNow exBookedDb
              exTransitions_terminal exBooked_sizes exBooked_within)
    as (_ & Hcancel & Hdelete).
  split; [apply Hcancel | apply Hdelete].
Defined.

Lemma cancelled_stays_cancelled_witness :
  cancelReservation exTransitions exNow "0" (Some "rain") exBookedDb
  = (inr ("0", withStatus exNow cancelled (Some "rain") exDoc), exCancelledDb)
  ∧ let later :=
      fold_left (runCall exTransitions)
        [CallCreate exNow (exInput 3 "19:00");
         CallUpdateStatus exNow "0" confirmed None] exCancelledDb in
    reservations later !! "0"
    = Some (withStatus exNow cancelled (Some "rain") exDoc)
    ∧ cancelReservation exTransitions exLate "0" None later
      = (inl (ValidationError "Reservation is already cancelled"), later).
Proof.
  split; [exact exCancel_run|].
  destruct (cancelled_stays_cancelled exTransitions exNow "0" (Some "rain")
              exBookedDb exCancelledDb _
              [CallCreate exNow (exInput 3 "19:00");
               CallUpdateStatus exNow "0" confirmed None]
              exTransitions_terminal exCancel_run) as (_ & Hkept & Hfails).
  split; [exact Hkept | exact (Hfails exLate None)].
Defined.

Lemma create_reduces_availability_witness :
  createReservation exNow (exInput 6 "19:00") exDb = (inr ("0", exDoc), exBookedDb)
  ∧ 0 ≤ 6
  ∧ ∃ before after,
      calculateSlotAvailability exDay "19:00" balcony exDb = (inr before, exDb)
      ∧ calculateSlotAvailability exDay "19:00" balcony exBookedDb
        = (inr after, exBookedDb)
      ∧ remainingCapacity before = 10
      ∧ remainingCapacity after = remainingCapacity before - 6.
Proof.
  split; [exact exBooked_run|]. split; [lia|].
  destruct (create_reduces_availability exNow (exInput 6 "19:00") exDb exBookedDb
              _ exBooked_run ltac:(simpl; lia) exDay "19:00" balcony)
    as (before & after & Hb & Ha & _ & _ & Hleft).
  exists before, after. split; [exact Hb|]. split; [exact Ha|].
  split; [|exact Hleft].
  vm_compute in Hb. by injection Hb as <-.
Defined.

Lemma create_then_undo_witness :
  createReservation exNow (exInput 6 "19:00") exDb = (inr ("0", exDoc), exBookedDb)
  ∧ ∃ db'',
      deleteReservation "0" exBookedDb = (inr tt, db'')
      ∧ reservations db'' = reservations exDb.
Proof.
  split; [exact exBooked_run|].
  destruct (create_then_undo exNow (exInput 6 "19:00") exDb exBookedDb "0"
              exDoc exBooked_run) as [(db'' & Hrun & Hsame & _) _].
  by exists db''.
Defined.

Lemma deleteReservation_spec_witness :
  deleteReservation "zz" exBookedDb
  = (inl (NotFoundError "Reservation not found"), exBookedDb)
  ∧ ∃ db',
      deleteReservation "0" exBookedDb = (inr tt, db')
      ∧ getReservation "0" db'
        = (inl (NotFoundError "Reservation not found"), db')
      ∧ S (size (reservations db')) = 1%nat.
Proof.
  split.
  - apply (deleteReservation_spec "zz" exBookedDb). vm_compute. reflexivity.
  - destruct (proj2 (deleteReservation_spec "0" exBookedDb) exDoc exBooked_id)
      as (db' & Hrun & Hget & _ & _ & Hsize & _).
    exists db'. split; [exact Hrun|]. split; [exact Hget|].
    rewrite Hsize. vm_compute. reflexivity.
Defined.

Lemma cancelReservation_succeeds_iff_witness :
  succeeds (cancelReservation exTransitions exNow "0" None exBookedDb)
  ∧ ¬ succeeds (cancelReservation exTransitions exLate "0" None exBookedDb).
Proof.
  split.
  - apply (cancelReservation_succeeds_iff exTransitions exNow "0" None exBookedDb).
    exists exDoc. split; [exact exBooked_id|]. split; [reflexivity|].
    split; [vm_compute; discriminate|]. simpl. rewrite !elem_of_cons. auto.
  - intros Hok.
    apply (cancelReservation_succeeds_iff exTransitions exLate "0" None exBookedDb)
      in Hok as (doc & Hstored & _ & Hleft & _).
    rewrite exBooked_id in Hstored. injection Hstored as <-.
    vm_compute in Hleft. by apply Hleft.
Defined.

Lemma failed_call_changes_nothing_witness :
  fst (createReservation exNow (exInput 6 "19:00") exBookedDb)
    = inl (ResourceExhaustedError
             "This time slot is fully booked. Only 4 seats remaining.")
  ∧ snd (createReservation exNow (exInput 6 "19:00") exBookedDb) = exBookedDb.
Proof.
  split; [exact exSecond_fails|].
  apply (failed_call_changes_nothing exTransitions exNow exBookedDb
           (ResourceExhaustedError
              "This time slot is fully booked. Only 4 seats remaining.")).
  exact exSecond_fails.
Defined.

Lemma listReservations_page_sound_witness :
  ("0", exDoc) ∈ pageOf exOffset (Some (mkListFilters (Some confirmed) (Some exDay) None None None None)) exBookedDb
  ∧ reservations exBookedDb !! "0" = Some exDoc
  ∧ sameLocalDay exOffset (date exDoc) exDay.
Proof.
  set (filters := Some (mkListFilters (Some confirmed) (Some exDay) None None None None)).
  assert (Hin : ("0", exDoc) ∈ pageOf exOffset filters exBookedDb).
  { replace (pageOf exOffset filters exBookedDb) with [("0", exDoc)]
      by (vm_compute; reflexivity).
    apply list_elem_of_here. }
  split; [exact Hin|].
  destruct (proj1 (listReservations_page_sound exOffset filters exBookedDb)
              "0" exDoc Hin)
    as (Hstored & _ & Hday & _).
  split; [exact Hstored|]. by apply Hday.
Defined.
